(** * High-speed file download to SPIFFS on ESP32: the download core

    A shallow embedding of [https_client.c]: the RAM write buffer
    ([flush_write_buffer]), the HTTP event callback ([_http_event_handler])
    and the retry loop ([https_download_file]), with the properties of the
    design document that concern them.

    Conventions.
    - The module-level statics of [https_client.c] are the fields of
      [machine]; functions that touch them are computations in the monad [M]
      (state passing, [None] when a loop of the model runs out of fuel).
    - Everything outside the file (ESP-IDF, FreeRTOS, libc, the network, the
      flash file system) is the environment [Env]: each call returns what
      the environment answers, as a function of the history of calls so far,
      and is appended to [trace].  The newest call is the head of [trace].
    - [size_t] is 32 bits wide on the ESP32, [int] is a 32-bit two's
      complement integer, [int64_t] is not narrowed.
    - [ESP_LOGx] lines and the throughput figure computed for them (in
      [double]) do not influence control flow and are left out. *)

From Stdlib Require Import ZArith List Bool Lia.
From Stdlib.Strings Require Import Byte.
Import ListNotations.
Local Open Scope Z_scope.

(** ** Constants of [https_client.c] *)

Definition MAX_RETRIES : Z := 3.
Definition MIN_SPEED_BPS : Z := 400 * 1024.
Definition HTTP_TIMEOUT_MS : Z := 5000.
Definition BACKOFF_BASE_MS : Z := 1000.
Definition WRITE_BUFFER_SIZE : Z := 32768.

(** [esp_err_t] and its two codes used here, as [esp_err.h] defines them. *)
Definition esp_err_t : Type := Z.
Definition ESP_OK : esp_err_t := 0.
Definition ESP_FAIL : esp_err_t := -1.

(** ** Machine integers *)

Definition SIZE_MODULUS : Z := 2 ^ 32.

(** Conversion to [size_t] (also the implicit one of [int] operands). *)
Definition to_size_t (z : Z) : Z := z mod SIZE_MODULUS.
Definition size_add (a b : Z) : Z := to_size_t (a + b).
Definition size_sub (a b : Z) : Z := to_size_t (a - b).

(** Wrap-around of a 32-bit [int]. *)
Definition to_int (z : Z) : Z := (z + 2 ^ 31) mod 2 ^ 32 - 2 ^ 31.

(** ** Transport events *)

Inductive esp_http_client_event_id_t : Type :=
| HTTP_EVENT_ERROR
| HTTP_EVENT_ON_CONNECTED
| HTTP_EVENT_HEADER_SENT
| HTTP_EVENT_ON_HEADER
| HTTP_EVENT_ON_DATA
| HTTP_EVENT_ON_FINISH
| HTTP_EVENT_DISCONNECTED
| HTTP_EVENT_REDIRECT.

(** The fields of [esp_http_client_event_t] the callback reads: [data] is
    [None] for a NULL pointer, otherwise the bytes it points to. *)
Record esp_http_client_event_t : Type := mk_event {
  event_id : esp_http_client_event_id_t;
  data : option (list byte);
  data_len : Z
}.

(** ** Calls into the environment *)

Inductive effect : Type :=
| E_http_client_init (handle : bool)
| E_unlink
| E_fopen (handle : bool)
| E_timer_get_time (now : Z)
| E_http_client_perform (events : list esp_http_client_event_t) (status : esp_err_t)
| E_spiffs_info (status : esp_err_t) (total used : Z)
| E_fwrite (ptr : list byte) (nmemb : Z) (written : Z)
| E_fclose
| E_http_client_cleanup
| E_vTaskDelay_ms (ms : Z).

(** The answers of the environment.  A handle is [true] when it is not
    NULL.  [env_http_client_perform] gives the events the transport will
    deliver to the callback during one [esp_http_client_perform] and the
    status that call returns. *)
Record Env : Type := mk_env {
  env_http_client_init : list effect -> bool;
  env_fopen : list effect -> bool;
  env_timer_get_time : list effect -> Z;
  env_http_client_perform :
    list effect -> list esp_http_client_event_t * esp_err_t;
  env_spiffs_info : list effect -> esp_err_t * (Z * Z);
  env_fwrite : list effect -> list byte -> Z -> Z
}.

(** ** The statics of [https_client.c] *)

Variant FILE : Type := spiffs_stream.

Record machine : Type := mk_machine {
  file_handle : option FILE;
  total_bytes : Z;
  start_time : Z;
  storage_error : bool;
  write_buffer : list byte;
  buffer_offset : Z;
  trace : list effect
}.

Definition set_file_handle (v : option FILE) (w : machine) : machine :=
  mk_machine v (total_bytes w) (start_time w) (storage_error w)
             (write_buffer w) (buffer_offset w) (trace w).
Definition set_total_bytes (v : Z) (w : machine) : machine :=
  mk_machine (file_handle w) v (start_time w) (storage_error w)
             (write_buffer w) (buffer_offset w) (trace w).
Definition set_start_time (v : Z) (w : machine) : machine :=
  mk_machine (file_handle w) (total_bytes w) v (storage_error w)
             (write_buffer w) (buffer_offset w) (trace w).
Definition set_storage_error (v : bool) (w : machine) : machine :=
  mk_machine (file_handle w) (total_bytes w) (start_time w) v
             (write_buffer w) (buffer_offset w) (trace w).
Definition set_write_buffer (v : list byte) (w : machine) : machine :=
  mk_machine (file_handle w) (total_bytes w) (start_time w) (storage_error w)
             v (buffer_offset w) (trace w).
Definition set_buffer_offset (v : Z) (w : machine) : machine :=
  mk_machine (file_handle w) (total_bytes w) (start_time w) (storage_error w)
             (write_buffer w) v (trace w).
Definition record (e : effect) (w : machine) : machine :=
  mk_machine (file_handle w) (total_bytes w) (start_time w) (storage_error w)
             (write_buffer w) (buffer_offset w) (e :: trace w).

Definition non_null {A : Type} (p : option A) : bool :=
  match p with Some _ => true | None => false end.

(** The statics as the C runtime initialises them. *)
Definition boot : machine :=
  mk_machine None 0 0 false (repeat x00 (Z.to_nat WRITE_BUFFER_SIZE)) 0 [].

(** ** The monad of the model *)

Definition M (A : Type) : Type := machine -> option (A * machine).

Definition ret {A : Type} (a : A) : M A := fun w => Some (a, w).
Definition bind {A B : Type} (m : M A) (k : A -> M B) : M B :=
  fun w => match m w with
           | Some (a, w') => k a w'
           | None => None
           end.
Definition get : M machine := fun w => Some (w, w).
Definition modify (f : machine -> machine) : M unit := fun w => Some (tt, f w).
Definition out_of_fuel {A : Type} : M A := fun _ => None.

Declare Scope m_scope.
Delimit Scope m_scope with M.
Notation "x <- m ;; k" := (bind m (fun x => k))
  (at level 61, m at next level, right associativity) : m_scope.
Notation "m ;; k" := (bind m (fun _ => k))
  (at level 61, right associativity) : m_scope.
Local Open Scope m_scope.

(** [memcpy (dst + off, src, n)] on the list view of the two arrays. *)
Definition memcpy (dst : list byte) (off : Z) (src : list byte) (n : Z)
  : list byte :=
  firstn (Z.to_nat off) dst ++ firstn (Z.to_nat n) src
  ++ skipn (Z.to_nat (off + n)) dst.

Section Downloader.

Variable env : Env.

(** *** Environment calls *)

Definition esp_http_client_init : M bool := fun w =>
  let h := env_http_client_init env (trace w) in
  Some (h, record (E_http_client_init h) w).

Definition unlink : M unit := modify (record E_unlink).

Definition fopen : M (option FILE) := fun w =>
  let h := env_fopen env (trace w) in
  Some (if h then Some spiffs_stream else None, record (E_fopen h) w).

Definition esp_timer_get_time : M Z := fun w =>
  let t := env_timer_get_time env (trace w) in
  Some (t, record (E_timer_get_time t) w).

Definition esp_spiffs_info : M (esp_err_t * (Z * Z)) := fun w =>
  let r := env_spiffs_info env (trace w) in
  Some (r, record (E_spiffs_info (fst r) (fst (snd r)) (snd (snd r))) w).

Definition fwrite (ptr : list byte) (nmemb : Z) : M Z := fun w =>
  let n := env_fwrite env (trace w) ptr nmemb in
  Some (n, record (E_fwrite ptr nmemb n) w).

Definition fclose : M unit := modify (record E_fclose).
Definition esp_http_client_cleanup : M unit :=
  modify (record E_http_client_cleanup).

(** [vTaskDelay(pdMS_TO_TICKS(ms))]: the delay is kept in milliseconds, the
    conversion to ticks depends on the FreeRTOS configuration. *)
Definition vTaskDelay_ms (ms : Z) : M unit := modify (record (E_vTaskDelay_ms ms)).

(** *** [flush_write_buffer] *)

Definition flush_write_buffer : M unit :=
  w <- get ;;
  if non_null (file_handle w) && (0 <? buffer_offset w)
     && negb (storage_error w)
  then
    written <- fwrite (firstn (Z.to_nat (buffer_offset w)) (write_buffer w))
                      (buffer_offset w) ;;
    (if negb (written =? buffer_offset w)
     then modify (set_storage_error true)
     else modify (fun s => set_total_bytes (size_add (total_bytes s) written) s)) ;;
    modify (set_buffer_offset 0)
  else ret tt.

(** *** [_http_event_handler] *)

(** The [while (remaining > 0 && !storage_error)] loop of the data case. *)
Fixpoint buffer_chunk (fuel : nat) (remaining : Z) (ptr : list byte)
  : M unit :=
  w <- get ;;
  if (0 <? remaining) && negb (storage_error w) then
    match fuel with
    | O => out_of_fuel
    | S fuel' =>
        let space_left := size_sub WRITE_BUFFER_SIZE (buffer_offset w) in
        let to_copy :=
          if remaining <? space_left then remaining else space_left in
        modify (fun s => set_write_buffer
                  (memcpy (write_buffer s) (buffer_offset s) ptr to_copy) s) ;;
        modify (fun s => set_buffer_offset
                  (size_add (buffer_offset s) to_copy) s) ;;
        w1 <- get ;;
        (if buffer_offset w1 =? WRITE_BUFFER_SIZE
         then flush_write_buffer else ret tt) ;;
        buffer_chunk fuel' (size_sub remaining to_copy)
                     (skipn (Z.to_nat to_copy) ptr)
    end
  else ret tt.

Definition on_data (evt : esp_http_client_event_t) : M unit :=
  w <- get ;;
  match data evt with
  | Some bytes =>
      if (0 <? data_len evt) && non_null (file_handle w)
         && negb (storage_error w)
      then
        info <- esp_spiffs_info ;;
        let free_space := size_sub (fst (snd info)) (snd (snd info)) in
        if (fst info =? ESP_OK) && (free_space <? to_size_t (data_len evt))
        then modify (set_storage_error true)
        else
          let remaining := to_size_t (data_len evt) in
          buffer_chunk (Z.to_nat remaining) remaining bytes
      else ret tt
  | None => ret tt
  end.

Definition _http_event_handler (evt : esp_http_client_event_t)
  : M esp_err_t :=
  match event_id evt with
  | HTTP_EVENT_ON_DATA => on_data evt
  | HTTP_EVENT_ON_FINISH => flush_write_buffer
  | HTTP_EVENT_ERROR | HTTP_EVENT_ON_CONNECTED | HTTP_EVENT_HEADER_SENT
  | HTTP_EVENT_ON_HEADER | HTTP_EVENT_DISCONNECTED | HTTP_EVENT_REDIRECT =>
      ret tt
  end ;;
  ret ESP_OK.

(** *** [esp_http_client_perform] with the callback installed *)

Fixpoint dispatch (evts : list esp_http_client_event_t) : M unit :=
  match evts with
  | [] => ret tt
  | evt :: rest => _http_event_handler evt ;; dispatch rest
  end.

Definition esp_http_client_perform : M esp_err_t := fun w =>
  let script := env_http_client_perform env (trace w) in
  (dispatch (fst script) ;; ret (snd script))
    (record (E_http_client_perform (fst script) (snd script)) w).

(** *** [https_download_file] *)

(** Lines 132-152: acquire the client and the sink, reset the session.
    [Some r] stands for [return r]. *)
Definition open_attempt : M (option esp_err_t) :=
  client <- esp_http_client_init ;;
  if negb client then ret (Some ESP_FAIL)
  else
    unlink ;;
    fh <- fopen ;;
    modify (set_file_handle fh) ;;
    if negb (non_null fh)
    then esp_http_client_cleanup ;; ret (Some ESP_FAIL)
    else
      modify (set_total_bytes 0) ;;
      modify (set_storage_error false) ;;
      modify (set_buffer_offset 0) ;;
      now <- esp_timer_get_time ;;
      modify (set_start_time now) ;;
      ret None.

(** Lines 154-160: the transfer, the last flush, closing the sink. *)
Definition transfer : M esp_err_t :=
  status <- esp_http_client_perform ;;
  flush_write_buffer ;;
  fclose ;;
  modify (set_file_handle None) ;;
  ret status.

(** [int backoff_ms = BACKOFF_BASE_MS * (1 << (attempt - 1));] *)
Definition backoff_ms (attempt : Z) : Z :=
  to_int (BACKOFF_BASE_MS * to_int (Z.shiftl 1 (attempt - 1))).

(** Lines 162-192: the outcome of the attempt.  [None] is the end of the
    loop body, after which the loop goes on with the next attempt. *)
Definition conclude (attempt : Z) (status : esp_err_t)
  : M (option esp_err_t) :=
  w <- get ;;
  if (status =? ESP_OK) && negb (storage_error w) then
    _ <- esp_timer_get_time ;;
    esp_http_client_cleanup ;;
    ret (Some ESP_OK)
  else if storage_error w then
    esp_http_client_cleanup ;;
    ret (Some ESP_FAIL)
  else
    vTaskDelay_ms (backoff_ms attempt) ;;
    esp_http_client_cleanup ;;
    ret None.

(** The body of the [for] loop. *)
Definition attempt_body (attempt : Z) : M (option esp_err_t) :=
  early <- open_attempt ;;
  match early with
  | Some r => ret (Some r)
  | None => status <- transfer ;; conclude attempt status
  end.

(** [for (int attempt = ...; attempt <= MAX_RETRIES; attempt++)]. *)
Fixpoint for_attempt (fuel : nat) (attempt : Z) : M esp_err_t :=
  if attempt <=? MAX_RETRIES then
    match fuel with
    | O => out_of_fuel
    | S fuel' =>
        r <- attempt_body attempt ;;
        match r with
        | Some v => ret v
        | None => for_attempt fuel' (to_int (attempt + 1))
        end
    end
  else ret ESP_FAIL.

Definition https_download_file : M esp_err_t :=
  for_attempt (Z.to_nat MAX_RETRIES) 1.

End Downloader.

(** ** Observations on traces *)

(** The byte counts handed to [fwrite], newest first. *)
Fixpoint flush_requests (t : list effect) : list Z :=
  match t with
  | [] => []
  | E_fwrite _ nmemb _ :: t' => nmemb :: flush_requests t'
  | _ :: t' => flush_requests t'
  end.

Definition sum_Z (l : list Z) : Z := fold_right Z.add 0 l.

(** A write of a whole buffer that the sink took whole. *)
Definition full_flush (e : effect) : Prop :=
  match e with
  | E_fwrite _ nmemb written =>
      nmemb = WRITE_BUFFER_SIZE /\ written = WRITE_BUFFER_SIZE
  | _ => False
  end.

(** A write the sink did not take whole. *)
Definition short_write (e : effect) : Prop :=
  match e with
  | E_fwrite _ nmemb written => written <> nmemb
  | _ => False
  end.

(** An event as the transport builds it: a payload of [data_len] bytes
    behind a non-NULL pointer, [data_len] an [int] that is not negative. *)
Definition wf_event (evt : esp_http_client_event_t) : Prop :=
  match data evt with
  | Some bytes => data_len evt = Z.of_nat (length bytes)
  | None => data_len evt = 0
  end /\ 0 <= data_len evt < 2 ^ 31.

(** Payload bytes carried by the data events of a list. *)
Fixpoint received (evts : list esp_http_client_event_t) : Z :=
  match evts with
  | [] => 0
  | evt :: rest =>
      match event_id evt with
      | HTTP_EVENT_ON_DATA => data_len evt + received rest
      | _ => received rest
      end
  end.

(** The sink is open and the buffer is not full: what holds whenever the
    transport calls back. *)
Definition session_open (w : machine) : Prop :=
  non_null (file_handle w) = true /\
  0 <= buffer_offset w < WRITE_BUFFER_SIZE.

Definition bounded_flush (n : Z) : Prop := 0 < n <= WRITE_BUFFER_SIZE.

(** Bytes of an event that the callback takes in: none unless the pointer
    is set and the length positive, else the length as a [size_t]. *)
Definition chunk_size (evt : esp_http_client_event_t) : Z :=
  match data evt with
  | Some _ => if 0 <? data_len evt then to_size_t (data_len evt) else 0
  | None => 0
  end.

Definition payload (evt : esp_http_client_event_t) : Z :=
  match event_id evt with
  | HTTP_EVENT_ON_DATA => chunk_size evt
  | _ => 0
  end.

Definition accepted (evts : list esp_http_client_event_t) : Z :=
  sum_Z (map payload evts).

(** What the retry loop does, as seen from outside: transport calls and
    sleeps, newest first. *)
Inductive sched : Type :=
| Attempt
| Sleep (ms : Z).

Fixpoint schedule (t : list effect) : list sched :=
  match t with
  | [] => []
  | E_http_client_perform _ _ :: t' => Attempt :: schedule t'
  | E_vTaskDelay_ms ms :: t' => Sleep ms :: schedule t'
  | _ :: t' => schedule t'
  end.

(** Calls the callback and the flush make. *)
Definition sink_effect (e : effect) : Prop :=
  match e with
  | E_spiffs_info _ _ _ | E_fwrite _ _ _ => True
  | _ => False
  end.

(** Calls the flush makes. *)
Definition write_effect (e : effect) : Prop :=
  match e with
  | E_fwrite _ _ _ => True
  | _ => False
  end.

(** Free-space queries in a trace. *)
Fixpoint queries (t : list effect) : nat :=
  match t with
  | [] => O
  | E_spiffs_info _ _ _ :: t' => S (queries t')
  | _ :: t' => queries t'
  end.

(** [transport_failures env k a w w']: starting in [w], the [k] attempts
    numbered [a], [a + 1], ... each acquire client and sink, get a status
    other than [ESP_OK] from the transport, and reach the decision with no
    storage error latched; [w'] is the machine when the last of them is
    over. *)
Inductive transport_failures (env : Env)
  : nat -> Z -> machine -> machine -> Prop :=
| tf_none (a : Z) (w : machine) : transport_failures env 0 a w w
| tf_next (k : nat) (a : Z) (w w1 w2 w3 w' : machine) (status : esp_err_t) :
    open_attempt env w = Some (None, w1) ->
    transfer env w1 = Some (status, w2) ->
    status <> ESP_OK ->
    storage_error w2 = false ->
    conclude env a status w2 = Some (None, w3) ->
    transport_failures env k (a + 1) w3 w' ->
    transport_failures env (S k) a w w'.

(** The attempt numbers [a], [a + 1], ..., [a + k - 1]. *)
Definition attempts_from (a : Z) (k : nat) : list Z :=
  map (fun j => a + Z.of_nat j) (seq 0 k).

(** Transport calls in a trace. *)
Fixpoint attempts_made (t : list effect) : nat :=
  match t with
  | [] => O
  | E_http_client_perform _ _ :: t' => S (attempts_made t')
  | _ :: t' => attempts_made t'
  end.

(** The bytes handed to [fwrite], oldest first. *)
Fixpoint flushed_bytes (t : list effect) : list byte :=
  match t with
  | [] => []
  | E_fwrite ptr _ _ :: t' => flushed_bytes t' ++ ptr
  | _ :: t' => flushed_bytes t'
  end.

(** The bytes waiting in the buffer. *)
Definition pending (w : machine) : list byte :=
  firstn (Z.to_nat (buffer_offset w)) (write_buffer w).

(** The payload of the data events of a list, in the order of arrival. *)
Fixpoint received_bytes (evts : list esp_http_client_event_t) : list byte :=
  match evts with
  | [] => []
  | evt :: rest =>
      match event_id evt, data evt with
      | HTTP_EVENT_ON_DATA, Some bytes => bytes ++ received_bytes rest
      | _, _ => received_bytes rest
      end
  end.

(** The array [write_buffer] has its declared size. *)
Definition buffer_allocated (w : machine) : Prop :=
  Z.of_nat (length (write_buffer w)) = WRITE_BUFFER_SIZE.

(** ** Scenarios *)

(** A data event of [n] bytes and the end-of-transfer event. *)
Definition chunk (n : nat) : esp_http_client_event_t :=
  mk_event HTTP_EVENT_ON_DATA (Some (repeat x2a n)) (Z.of_nat n).
Definition finish : esp_http_client_event_t :=
  mk_event HTTP_EVENT_ON_FINISH None 0.

(** An environment that always hands out a client, opens the sink or not,
    answers the [k]-th transport call (from 0) with [perform k], every
    free-space query with [info], and takes [taken n] bytes of a write of
    [n]. *)
Definition scripted_env (fopen_ok : bool)
           (perform : nat -> list esp_http_client_event_t * esp_err_t)
           (info : esp_err_t * (Z * Z)) (taken : Z -> Z) : Env :=
  mk_env (fun _ => true)
         (fun _ => fopen_ok)
         (fun t => Z.of_nat (length t))
         (fun t => perform (attempts_made t))
         (fun _ => info)
         (fun _ _ n => taken n).

Definition two_chunks : list esp_http_client_event_t * esp_err_t :=
  ([chunk (Z.to_nat 20000); chunk (Z.to_nat 20000); finish], ESP_OK).

(** Scenario A: 40000 bytes in two chunks, room enough. *)
Definition env_two_chunks : Env :=
  scripted_env true (fun _ => two_chunks) (ESP_OK, (1000000, 0)) (fun n => n).

(** Scenario B: 1000 bytes free, a chunk of 2000. *)
Definition env_out_of_space : Env :=
  scripted_env true (fun _ => ([chunk (Z.to_nat 2000)], ESP_OK)) (ESP_OK, (1000, 0))
               (fun n => n).

(** Scenario C: the transport fails twice, then delivers. *)
Definition env_third_time : Env :=
  scripted_env true
    (fun k => if (k <? 2)%nat then ([], ESP_FAIL) else two_chunks)
    (ESP_OK, (1000000, 0)) (fun n => n).

(** Scenario D: the sink cannot be opened. *)
Definition env_no_sink : Env :=
  scripted_env false (fun _ => two_chunks) (ESP_OK, (1000000, 0)) (fun n => n).

(** The transport fails every time. *)
Definition env_unreachable : Env :=
  scripted_env true (fun _ => ([], ESP_FAIL)) (ESP_OK, (1000000, 0))
               (fun n => n).

(** The sink takes nothing. *)
Definition env_worn_flash : Env :=
  scripted_env true (fun _ => two_chunks) (ESP_OK, (1000000, 0)) (fun _ => 0).


(** No client to be had. *)
Definition env_no_client : Env :=
  mk_env (fun _ => false) (fun _ => true) (fun t => Z.of_nat (length t))
         (fun _ => two_chunks) (fun _ => (ESP_OK, (1000000, 0)))
         (fun _ _ n => n).

(** 1000 bytes free; a chunk of 2000, one of 500, the end of the stream. *)
Definition env_fills_up : Env :=
  scripted_env true
    (fun _ => ([chunk (Z.to_nat 2000); chunk (Z.to_nat 500); finish], ESP_OK))
    (ESP_OK, (1000, 0)) (fun n => n).

(** A file system that reports more bytes used than it has. *)
Definition env_inconsistent : Env :=
  scripted_env true (fun _ => two_chunks) (ESP_OK, (1000, 2000)) (fun n => n).


(** The machine a computation leaves. *)
Definition after {A : Type} (m : M A) (w : machine) : machine :=
  match m w with
  | Some (_, w') => w'
  | None => w
  end.

(** The session as [open_attempt] leaves it on a fresh machine. *)
Definition opened (env : Env) : machine := after (open_attempt env) boot.

(** The machine after an attempt that started in [w], got [status] from
    the transport and was concluded as attempt [a]. *)
Definition attempted (env : Env) (a : Z) (status : esp_err_t) (w : machine)
  : machine :=
  after (conclude env a status)
        (after (transfer env) (after (open_attempt env) w)).

(** ** Further observations *)

(** A write the sink took whole, of a buffer no longer than the count. *)
Definition whole_write (e : effect) : Prop :=
  match e with
  | E_fwrite ptr nmemb written =>
      written = nmemb /\ (length ptr <= Z.to_nat nmemb)%nat
  | _ => True
  end.

(** [accounted w w' added]: from [w] to [w'] the calls [added] were made,
    all of them by the callback or the flush, every write was taken
    whole, and [total_bytes] went up by what was written (as a [size_t]). *)
Definition accounted (w w' : machine) (added : list effect) : Prop :=
  trace w' = added ++ trace w /\
  Forall sink_effect added /\
  Forall whole_write added /\
  to_size_t (total_bytes w')
  = to_size_t (total_bytes w + sum_Z (flush_requests added)) /\
  (0 <= total_bytes w < SIZE_MODULUS -> 0 <= total_bytes w' < SIZE_MODULUS).

(** What [fwrite] has reported as taken since the newest [fopen]: of each
    write, as many bytes from the front as the call returned.  This is what
    the code can know of the stream; it is not the content of the file,
    since stdio may hold bytes back and the result of [fclose] (line 159)
    is not looked at. *)
Fixpoint taken_by_fwrite (t : list effect) : list byte :=
  match t with
  | [] => []
  | E_fopen _ :: _ => []
  | E_fwrite ptr _ written :: t' =>
      taken_by_fwrite t' ++ firstn (Z.to_nat written) ptr
  | _ :: t' => taken_by_fwrite t'
  end.

(** The events of the newest transport call of a trace. *)
Fixpoint last_script (t : list effect) : list esp_http_client_event_t :=
  match t with
  | [] => []
  | E_http_client_perform evts _ :: _ => evts
  | _ :: t' => last_script t'
  end.

(** Clients handed out and released, sinks opened and closed. *)
Definition client_acquired (e : effect) : bool :=
  match e with E_http_client_init true => true | _ => false end.
Definition client_released (e : effect) : bool :=
  match e with E_http_client_cleanup => true | _ => false end.
Definition sink_opened (e : effect) : bool :=
  match e with E_fopen true => true | _ => false end.
Definition sink_closed (e : effect) : bool :=
  match e with E_fclose => true | _ => false end.
Definition sink_unlinked (e : effect) : bool :=
  match e with E_unlink => true | _ => false end.

Definition count (p : effect -> bool) (t : list effect) : nat :=
  length (filter p t).

(** Clients and sinks are released as often as they were acquired. *)
Definition balanced (added : list effect) : Prop :=
  count client_acquired added = count client_released added /\
  count sink_opened added = count sink_closed added.

(** Milliseconds slept. *)
Fixpoint slept (t : list effect) : Z :=
  match t with
  | [] => 0
  | E_vTaskDelay_ms ms :: t' => ms + slept t'
  | _ :: t' => slept t'
  end.

(** The sleep still ahead of the loop when it is about to make attempt
    [a]: the backoffs of the attempts [a] to [MAX_RETRIES]. *)
Definition backoff_budget (a : Z) : Z :=
  BACKOFF_BASE_MS * (2 ^ MAX_RETRIES - 2 ^ (a - 1)).

Section Properties.

Variable env : Env.

(** ** The write buffer *)

Lemma flush_write_buffer_skip (w : machine) :
  non_null (file_handle w) && (0 <? buffer_offset w)
    && negb (storage_error w) = false ->
  flush_write_buffer env w = Some (tt, w).
Proof.
  intros H. unfold flush_write_buffer, bind, get. now rewrite H.
Qed.

Lemma flush_write_buffer_write (w : machine) :
  non_null (file_handle w) && (0 <? buffer_offset w)
    && negb (storage_error w) = true ->
  let buf := firstn (Z.to_nat (buffer_offset w)) (write_buffer w) in
  let written := env_fwrite env (trace w) buf (buffer_offset w) in
  let w1 := record (E_fwrite buf (buffer_offset w) written) w in
  flush_write_buffer env w =
  Some (tt, set_buffer_offset 0
              (if written =? buffer_offset w
               then set_total_bytes (size_add (total_bytes w) written) w1
               else set_storage_error true w1)).
Proof.
  intros H. unfold flush_write_buffer, bind, get, fwrite, modify.
  rewrite H. cbv zeta.
  destruct (env_fwrite env (trace w) _ (buffer_offset w) =? buffer_offset w);
    reflexivity.
Qed.

Lemma buffer_chunk_done (fuel : nat) (n : Z) (ptr : list byte) (w : machine) :
  (0 <? n) && negb (storage_error w) = false ->
  buffer_chunk env fuel n ptr w = Some (tt, w).
Proof.
  intros H. destruct fuel; simpl; unfold bind, get; now rewrite H.
Qed.

Lemma buffer_chunk_step (fuel : nat) (n : Z) (ptr : list byte) (w : machine) :
  (0 <? n) && negb (storage_error w) = true ->
  let space_left := size_sub WRITE_BUFFER_SIZE (buffer_offset w) in
  let to_copy := if n <? space_left then n else space_left in
  let w1 := set_buffer_offset (size_add (buffer_offset w) to_copy)
              (set_write_buffer
                 (memcpy (write_buffer w) (buffer_offset w) ptr to_copy) w) in
  buffer_chunk env (S fuel) n ptr w =
  match (if buffer_offset w1 =? WRITE_BUFFER_SIZE
         then flush_write_buffer env w1 else Some (tt, w1)) with
  | Some (_, w2) =>
      buffer_chunk env fuel (size_sub n to_copy)
                   (skipn (Z.to_nat to_copy) ptr) w2
  | None => None
  end.
Proof.
  intros H. cbv zeta.
  change (buffer_chunk env (S fuel) n ptr w) with
    (bind get (fun w0 =>
       if (0 <? n) && negb (storage_error w0) then
         let space_left := size_sub WRITE_BUFFER_SIZE (buffer_offset w0) in
         let to_copy := if n <? space_left then n else space_left in
         bind (modify (fun s => set_write_buffer
                  (memcpy (write_buffer s) (buffer_offset s) ptr to_copy) s))
           (fun _ =>
         bind (modify (fun s => set_buffer_offset
                  (size_add (buffer_offset s) to_copy) s))
           (fun _ =>
         bind get (fun w1 =>
         bind (if buffer_offset w1 =? WRITE_BUFFER_SIZE
               then flush_write_buffer env else ret tt)
           (fun _ =>
         buffer_chunk env fuel (size_sub n to_copy)
                      (skipn (Z.to_nat to_copy) ptr)))))
       else ret tt) w).
  unfold bind at 1, get at 1. rewrite H. cbv zeta.
  unfold bind, modify, get, ret. cbn [buffer_offset set_buffer_offset set_write_buffer].
  match goal with |- context [if ?c then _ else _] => destruct c end; reflexivity.
Qed.

Lemma size_sub_exact (a b : Z) :
  0 <= a - b < SIZE_MODULUS -> size_sub a b = a - b.
Proof. intros H. unfold size_sub, to_size_t. now apply Z.mod_small. Qed.

Lemma size_add_exact (a b : Z) :
  0 <= a + b < SIZE_MODULUS -> size_add a b = a + b.
Proof. intros H. unfold size_add, to_size_t. now apply Z.mod_small. Qed.

Lemma buffer_size_fits : 0 < WRITE_BUFFER_SIZE < SIZE_MODULUS.
Proof. unfold WRITE_BUFFER_SIZE, SIZE_MODULUS. lia. Qed.

(** The copy loop, from a buffer that is not full and a sink that is open
    with no error latched: it ends within [remaining] iterations, flushes a
    whole buffer each time the buffer fills, and stops early only on a
    short write. *)
Lemma buffer_chunk_spec (fuel : nat) :
  forall (n : Z) (ptr : list byte) (w : machine),
    non_null (file_handle w) = true ->
    storage_error w = false ->
    0 <= buffer_offset w < WRITE_BUFFER_SIZE ->
    0 <= n < SIZE_MODULUS ->
    (Z.to_nat n <= fuel)%nat ->
    exists w' added,
      buffer_chunk env fuel n ptr w = Some (tt, w') /\
      trace w' = added ++ trace w /\
      file_handle w' = file_handle w /\
      0 <= buffer_offset w' < WRITE_BUFFER_SIZE /\
      (storage_error w' = true -> Exists short_write added) /\
      (storage_error w' = false ->
       Forall full_flush added /\
       Z.of_nat (length added) = (buffer_offset w + n) / WRITE_BUFFER_SIZE /\
       buffer_offset w' = (buffer_offset w + n) mod WRITE_BUFFER_SIZE).
Proof.
  pose proof buffer_size_fits as HB.
  induction fuel as [|fuel IH]; intros n ptr w Hfh Herr Hoff Hn Hfuel.
  - assert (n = 0) by lia. subst n.
    exists w, []. rewrite buffer_chunk_done by reflexivity.
    rewrite Z.add_0_r, Z.div_small, Z.mod_small by lia.
    repeat split; auto; try lia. congruence.
  - destruct (Z.eq_dec n 0) as [->|Hn0].
    + exists w, []. rewrite buffer_chunk_done by reflexivity.
      rewrite Z.add_0_r, Z.div_small, Z.mod_small by lia.
      repeat split; auto; try lia. congruence.
    + rewrite buffer_chunk_step
        by (rewrite Herr; apply andb_true_iff; split; [apply Z.ltb_lt; lia | reflexivity]).
      cbv zeta. cbn [buffer_offset set_buffer_offset set_write_buffer].
      rewrite (size_sub_exact WRITE_BUFFER_SIZE) by lia.
      destruct (Z.ltb_spec n (WRITE_BUFFER_SIZE - buffer_offset w)) as [Hlt|Hge].
      * rewrite size_add_exact by lia.
        destruct (Z.eqb_spec (buffer_offset w + n) WRITE_BUFFER_SIZE) as [E|_];
          [lia|].
        rewrite buffer_chunk_done
          by (rewrite size_sub_exact by lia; rewrite Z.sub_diag; reflexivity).
        eexists _, []. split; [reflexivity|].
        cbn [trace file_handle buffer_offset storage_error
             set_buffer_offset set_write_buffer app length].
        rewrite Z.div_small, Z.mod_small by lia.
        repeat split; auto; try lia. congruence.
      * rewrite size_add_exact by lia.
        replace (buffer_offset w + (WRITE_BUFFER_SIZE - buffer_offset w))
          with WRITE_BUFFER_SIZE by lia.
        rewrite Z.eqb_refl.
        rewrite flush_write_buffer_write
          by (cbn [file_handle buffer_offset storage_error
                   set_buffer_offset set_write_buffer];
              rewrite Hfh, Herr;
              replace (0 <? WRITE_BUFFER_SIZE) with true by reflexivity;
              reflexivity).
        cbv zeta.
        cbn [trace file_handle buffer_offset storage_error total_bytes
             write_buffer set_buffer_offset set_write_buffer].
        set (buf := firstn (Z.to_nat WRITE_BUFFER_SIZE) _).
        set (written := env_fwrite env (trace w) buf WRITE_BUFFER_SIZE).
        set (n' := size_sub n (WRITE_BUFFER_SIZE - buffer_offset w)).
        assert (Hn' : n' = n - (WRITE_BUFFER_SIZE - buffer_offset w))
          by (apply size_sub_exact; lia).
        destruct (Z.eqb_spec written WRITE_BUFFER_SIZE) as [Hw|Hw].
        -- match goal with |- context [buffer_chunk env fuel n' ?p ?s] =>
             destruct (IH n' p s) as (w' & added & Hrun & Htr & Hf & Ho & He & Hok)
           end; cbn [trace file_handle buffer_offset storage_error
                     set_buffer_offset set_total_bytes record]; auto; try lia.
           cbn [trace file_handle buffer_offset storage_error
                set_buffer_offset set_total_bytes record] in *.
           exists w', (added ++ [E_fwrite buf WRITE_BUFFER_SIZE written]).
           split; [exact Hrun|].
           split; [rewrite Htr, <- app_assoc; reflexivity|].
           split; [exact Hf|]. split; [exact Ho|].
           split.
           ++ intros E. apply Exists_app. left. auto.
           ++ intros E. destruct (Hok E) as (Hall & Hlen & Hoff').
              split; [|split].
              ** apply Forall_app. split; [exact Hall|].
                 constructor; [|constructor]. simpl. auto.
              ** rewrite length_app, Nat2Z.inj_add, Hlen. simpl length.
                 replace (buffer_offset w + n)
                   with (n' + 1 * WRITE_BUFFER_SIZE) by lia.
                 rewrite Z.div_add by lia. simpl. lia.
              ** rewrite Hoff'.
                 replace (buffer_offset w + n)
                   with (n' + 1 * WRITE_BUFFER_SIZE) by lia.
                 rewrite Z.mod_add by lia. reflexivity.
        -- rewrite buffer_chunk_done
             by (cbn [storage_error set_buffer_offset set_storage_error];
                 apply andb_false_r).
           eexists _, [E_fwrite buf WRITE_BUFFER_SIZE written].
           split; [reflexivity|].
           cbn [trace file_handle buffer_offset storage_error
                set_buffer_offset set_storage_error record app].
           repeat split; auto; try lia; try discriminate.
Qed.


Lemma flush_requests_app (a b : list effect) :
  flush_requests (a ++ b) = flush_requests a ++ flush_requests b.
Proof.
  induction a as [|e a IH]; [reflexivity|].
  destruct e; simpl; rewrite IH; reflexivity.
Qed.

Lemma flush_requests_full (a : list effect) :
  Forall full_flush a ->
  flush_requests a = repeat WRITE_BUFFER_SIZE (length a).
Proof.
  induction 1 as [|e a He _ IH]; [reflexivity|].
  destruct e; simpl in He; try contradiction.
  destruct He as [-> _]. simpl. now rewrite IH.
Qed.

Lemma sum_Z_app (a b : list Z) : sum_Z (a ++ b) = sum_Z a + sum_Z b.
Proof. induction a as [|x a IH]; simpl; [reflexivity | rewrite IH; lia]. Qed.

Lemma sum_Z_repeat (x : Z) (k : nat) : sum_Z (repeat x k) = x * Z.of_nat k.
Proof. induction k as [|k IH]; simpl repeat; simpl sum_Z; [lia | rewrite IH; lia]. Qed.

Lemma to_size_t_range (z : Z) : 0 <= to_size_t z < SIZE_MODULUS.
Proof. unfold to_size_t, SIZE_MODULUS. apply Z.mod_pos_bound. lia. Qed.

Lemma chunk_size_wf (evt : esp_http_client_event_t) :
  wf_event evt -> chunk_size evt = data_len evt.
Proof.
  intros [Hdata Hrange]. unfold chunk_size.
  destruct (data evt); [|congruence].
  destruct (Z.ltb_spec 0 (data_len evt)); [|lia].
  unfold to_size_t, SIZE_MODULUS. apply Z.mod_small. lia.
Qed.

(** A data event on an open session. *)
Lemma on_data_spec (evt : esp_http_client_event_t) (w : machine) :
  session_open w ->
  exists w' added,
    on_data env evt w = Some (tt, w') /\
    trace w' = added ++ trace w /\
    file_handle w' = file_handle w /\
    0 <= buffer_offset w' < WRITE_BUFFER_SIZE /\
    (storage_error w = true -> w' = w) /\
    (storage_error w' = false ->
     storage_error w = false /\
     flush_requests added =
       repeat WRITE_BUFFER_SIZE
         (Z.to_nat ((buffer_offset w + chunk_size evt) / WRITE_BUFFER_SIZE)) /\
     buffer_offset w' = (buffer_offset w + chunk_size evt) mod WRITE_BUFFER_SIZE).
Proof.
  intros [Hfh Hoff].
  assert (Hskip : exists w' added,
    Some (tt, w) = Some (tt, w') /\ trace w' = added ++ trace w /\
    file_handle w' = file_handle w /\
    0 <= buffer_offset w' < WRITE_BUFFER_SIZE /\
    (storage_error w = true -> w' = w) /\
    (storage_error w' = false -> storage_error w = false /\
     flush_requests added = repeat WRITE_BUFFER_SIZE
         (Z.to_nat ((buffer_offset w + 0) / WRITE_BUFFER_SIZE)) /\
     buffer_offset w' = (buffer_offset w + 0) mod WRITE_BUFFER_SIZE)).
  { exists w, []. rewrite Z.add_0_r, Z.div_small, Z.mod_small by lia.
    repeat split; auto; lia. }
  unfold on_data, chunk_size, bind, get.
  destruct (data evt) as [bytes|]; [|exact Hskip].
  destruct (0 <? data_len evt); [|exact Hskip].
  rewrite Hfh. cbn [andb].
  destruct (storage_error w) eqn:Herr; cbn [negb].
  { exists w, []. repeat split; auto; try lia; congruence. }
  unfold esp_spiffs_info. cbv zeta.
  set (info := env_spiffs_info env (trace w)).
  set (q := E_spiffs_info _ _ _).
  pose proof (to_size_t_range (data_len evt)) as Hn.
  set (n := to_size_t (data_len evt)) in *.
  destruct ((fst info =? ESP_OK)
            && (size_sub (fst (snd info)) (snd (snd info)) <? n)).
  - unfold modify. eexists _, [q]. split; [reflexivity|].
    cbn [trace file_handle buffer_offset storage_error set_storage_error
         record app].
    repeat split; auto; try lia; discriminate.
  - destruct (buffer_chunk_spec (Z.to_nat n) n bytes (record q w))
      as (w' & added & Hrun & Htr & Hf & Ho & _ & Hok);
      cbn [trace file_handle buffer_offset storage_error record];
      auto; try lia.
    cbn [trace file_handle buffer_offset storage_error record] in *.
    exists w', (added ++ [q]). split; [exact Hrun|].
    split; [rewrite Htr, <- app_assoc; reflexivity|].
    split; [exact Hf|]. split; [exact Ho|].
    split; [discriminate|].
    intros E. destruct (Hok E) as (Hall & Hcount & Hoff').
    split; [reflexivity|]. split; [|exact Hoff'].
    rewrite flush_requests_app. simpl (flush_requests [q]).
    rewrite app_nil_r, (flush_requests_full _ Hall).
    f_equal. lia.
Qed.

Lemma Forall_bounded_repeat (k : nat) :
  Forall bounded_flush (repeat WRITE_BUFFER_SIZE k).
Proof.
  induction k; simpl; constructor; auto.
  unfold bounded_flush, WRITE_BUFFER_SIZE. lia.
Qed.

(** A flush on an open session. *)
Lemma flush_spec (w : machine) :
  session_open w ->
  exists w' added,
    flush_write_buffer env w = Some (tt, w') /\
    trace w' = added ++ trace w /\
    file_handle w' = file_handle w /\
    (storage_error w = true -> w' = w) /\
    (storage_error w = false -> buffer_offset w' = 0) /\
    (storage_error w' = false ->
     storage_error w = false /\
     sum_Z (flush_requests added) = buffer_offset w /\
     Forall bounded_flush (flush_requests added)).
Proof.
  intros [Hfh Hoff].
  destruct (non_null (file_handle w) && (0 <? buffer_offset w)
            && negb (storage_error w)) eqn:G.
  - rewrite flush_write_buffer_write by exact G. cbv zeta.
    apply andb_true_iff in G as [G Herr].
    apply andb_true_iff in G as [_ Hpos].
    apply negb_true_iff in Herr. apply Z.ltb_lt in Hpos.
    set (buf := firstn _ _). set (written := env_fwrite _ _ _ _).
    eexists _, [E_fwrite buf (buffer_offset w) written].
    split; [reflexivity|].
    destruct (written =? buffer_offset w);
      cbn [trace file_handle buffer_offset storage_error set_buffer_offset
           set_total_bytes set_storage_error record app flush_requests sum_Z
           fold_right];
      repeat split; auto; try congruence; try lia.
    constructor; [unfold bounded_flush; lia | constructor].
  - rewrite flush_write_buffer_skip by exact G.
    exists w, []. split; [reflexivity|]. split; [reflexivity|].
    split; [reflexivity|]. split; [reflexivity|].
    rewrite Hfh in G. cbn [andb] in G.
    split.
    + intros Herr. rewrite Herr in G. cbn [negb] in G.
      rewrite andb_true_r in G. apply Z.ltb_ge in G. lia.
    + intros Herr. rewrite Herr in G. cbn [negb] in G.
      rewrite andb_true_r in G. apply Z.ltb_ge in G.
      split; [exact Herr|]. simpl. split; [lia | constructor].
Qed.

(** One callback on an open session: it returns [ESP_OK], leaves the
    session open, never clears a latched error, and accounts for every
    byte it accepts. *)
Lemma handler_spec (evt : esp_http_client_event_t) (w : machine) :
  session_open w ->
  exists w' added,
    _http_event_handler env evt w = Some (ESP_OK, w') /\
    trace w' = added ++ trace w /\
    session_open w' /\
    (storage_error w = true -> w' = w) /\
    (storage_error w' = false ->
     storage_error w = false /\
     sum_Z (flush_requests added) + buffer_offset w'
       = buffer_offset w + payload evt /\
     Forall bounded_flush (flush_requests added)).
Proof.
  intros Hopen. pose proof Hopen as [Hfh Hoff].
  assert (Hidle : event_id evt <> HTTP_EVENT_ON_DATA ->
                  event_id evt <> HTTP_EVENT_ON_FINISH ->
                  exists w' added,
    Some (ESP_OK, w) = Some (ESP_OK, w') /\ trace w' = added ++ trace w /\
    session_open w' /\ (storage_error w = true -> w' = w) /\
    (storage_error w' = false -> storage_error w = false /\
     sum_Z (flush_requests added) + buffer_offset w'
       = buffer_offset w + 0 /\
     Forall bounded_flush (flush_requests added))).
  { intros H1 H2. exists w, [].
    repeat split; auto; simpl; try lia; constructor. }
  unfold _http_event_handler, payload, bind, ret.
  destruct (event_id evt) eqn:Hid;
    try (apply Hidle; discriminate).
  - destruct (on_data_spec evt w Hopen)
      as (w' & added & Hrun & Htr & Hf & Ho & Hlatch & Hok).
    cbv beta iota. rewrite Hrun. exists w', added.
    split; [reflexivity|]. split; [exact Htr|].
    split; [split; [rewrite Hf; exact Hfh | exact Ho]|].
    split; [exact Hlatch|].
    intros E. destruct (Hok E) as (E0 & Hreq & Hoff').
    split; [exact E0|]. rewrite Hreq, Hoff', sum_Z_repeat.
    split; [|apply Forall_bounded_repeat].
    pose proof buffer_size_fits as HB.
    assert (0 <= chunk_size evt).
    { unfold chunk_size. pose proof (to_size_t_range (data_len evt)).
      destruct (data evt); [destruct (0 <? data_len evt)|]; lia. }
    rewrite Z2Nat.id by (apply Z.div_pos; lia).
    pose proof (Z.div_mod (buffer_offset w + chunk_size evt) WRITE_BUFFER_SIZE).
    lia.
  - destruct (flush_spec w Hopen)
      as (w' & added & Hrun & Htr & Hf & Hlatch & Hzero & Hok).
    cbv beta iota. rewrite Hrun. exists w', added.
    split; [reflexivity|]. split; [exact Htr|].
    assert (Ho : 0 <= buffer_offset w' < WRITE_BUFFER_SIZE).
    { destruct (storage_error w) eqn:E.
      - rewrite (Hlatch eq_refl). exact Hoff.
      - rewrite (Hzero eq_refl). lia. }
    split; [split; [rewrite Hf; exact Hfh | exact Ho]|].
    split; [exact Hlatch|].
    intros E. destruct (Hok E) as (E0 & Hsum & Hall).
    split; [exact E0|]. rewrite Hsum, (Hzero E0). split; [lia | exact Hall].
Qed.

Lemma dispatch_spec (evts : list esp_http_client_event_t) :
  forall w : machine,
    session_open w ->
    exists w' added,
      dispatch env evts w = Some (tt, w') /\
      trace w' = added ++ trace w /\
      session_open w' /\
      (storage_error w = true -> w' = w) /\
      (storage_error w' = false ->
       storage_error w = false /\
       sum_Z (flush_requests added) + buffer_offset w'
         = buffer_offset w + accepted evts /\
       Forall bounded_flush (flush_requests added)).
Proof.
  induction evts as [|evt rest IH]; intros w Hopen.
  - exists w, []. simpl. unfold ret.
    repeat split; try apply Hopen; auto; try (unfold accepted; simpl; lia).
  - destruct (handler_spec evt w Hopen)
      as (w1 & a1 & Hrun1 & Htr1 & Hopen1 & Hlatch1 & Hok1).
    destruct (IH w1 Hopen1)
      as (w2 & a2 & Hrun2 & Htr2 & Hopen2 & Hlatch2 & Hok2).
    exists w2, (a2 ++ a1).
    split; [simpl; unfold bind; rewrite Hrun1; exact Hrun2|].
    split; [rewrite Htr2, Htr1, app_assoc; reflexivity|].
    split; [exact Hopen2|].
    split.
    + intros E. rewrite <- (Hlatch1 E), Hlatch2; auto.
      rewrite (Hlatch1 E). exact E.
    + intros E. destruct (Hok2 E) as (E1 & Hsum2 & Hall2).
      destruct (Hok1 E1) as (E0 & Hsum1 & Hall1).
      split; [exact E0|].
      rewrite flush_requests_app, sum_Z_app.
      split; [|apply Forall_app; auto].
      change (accepted (evt :: rest)) with (payload evt + accepted rest).
      lia.
Qed.


Lemma dispatch_app (pre post : list esp_http_client_event_t) (w : machine) :
  dispatch env (pre ++ post) w =
  match dispatch env pre w with
  | Some (_, w1) => dispatch env post w1
  | None => None
  end.
Proof.
  revert w. induction pre as [|evt pre IH]; intros w; [reflexivity|].
  simpl. unfold bind.
  destruct (_http_event_handler env evt w) as [[? w1]|]; [apply IH | reflexivity].
Qed.

Lemma handler_on_data (evt : esp_http_client_event_t) (w : machine) :
  event_id evt = HTTP_EVENT_ON_DATA ->
  _http_event_handler env evt w =
  match on_data env evt w with
  | Some (_, w') => Some (ESP_OK, w')
  | None => None
  end.
Proof. intros H. unfold _http_event_handler, bind, ret. now rewrite H. Qed.

(** Once [storage_error] is set, a callback changes nothing. *)
Lemma handler_latched (evt : esp_http_client_event_t) (w : machine) :
  storage_error w = true ->
  _http_event_handler env evt w = Some (ESP_OK, w).
Proof.
  intros Herr. unfold _http_event_handler, bind, ret.
  destruct (event_id evt); cbv beta iota; try reflexivity.
  - unfold on_data, bind, get. rewrite Herr.
    destruct (data evt); [|reflexivity].
    cbn [negb]. rewrite andb_false_r. reflexivity.
  - rewrite flush_write_buffer_skip; [reflexivity|].
    rewrite Herr. apply andb_false_r.
Qed.

Lemma dispatch_latched (evts : list esp_http_client_event_t) (w : machine) :
  storage_error w = true -> dispatch env evts w = Some (tt, w).
Proof.
  intros Herr. induction evts as [|evt rest IH]; [reflexivity|].
  simpl. unfold bind. rewrite handler_latched by exact Herr. exact IH.
Qed.

(** ** The attempt *)

(** [open_attempt], case by case. *)
Lemma open_attempt_cases (w : machine) :
  let t1 := E_unlink :: E_http_client_init true :: trace w in
  open_attempt env w =
  if env_http_client_init env (trace w) then
    if env_fopen env t1 then
      let t2 := E_fopen true :: t1 in
      let now := env_timer_get_time env t2 in
      Some (None,
            mk_machine (Some spiffs_stream) 0 now false (write_buffer w) 0
                       (E_timer_get_time now :: t2))
    else
      Some (Some ESP_FAIL,
            mk_machine None (total_bytes w) (start_time w) (storage_error w)
                       (write_buffer w) (buffer_offset w)
                       (E_http_client_cleanup :: E_fopen false :: t1))
  else
    Some (Some ESP_FAIL, record (E_http_client_init false) w).
Proof.
  unfold open_attempt, bind, esp_http_client_init. cbv zeta.
  destruct (env_http_client_init env (trace w)); [|reflexivity].
  cbn [negb]. unfold unlink, fopen, modify. cbv zeta. cbn [trace record].
  destruct (env_fopen env _); reflexivity.
Qed.

Lemma open_attempt_fresh (w0 w : machine) :
  open_attempt env w0 = Some (None, w) ->
  file_handle w = Some spiffs_stream /\ total_bytes w = 0 /\
  storage_error w = false /\ buffer_offset w = 0.
Proof.
  rewrite open_attempt_cases. cbv zeta.
  destruct (env_http_client_init env _); [|discriminate].
  destruct (env_fopen env _); [|discriminate].
  intros H. injection H as <-. repeat split.
Qed.

(** [transfer] in terms of what the transport delivers. *)
Lemma transfer_unfold (w : machine) :
  let script := env_http_client_perform env (trace w) in
  transfer env w =
  match dispatch env (fst script)
          (record (E_http_client_perform (fst script) (snd script)) w) with
  | Some (_, w1) =>
      match flush_write_buffer env w1 with
      | Some (_, w2) =>
          Some (snd script, set_file_handle None (record E_fclose w2))
      | None => None
      end
  | None => None
  end.
Proof.
  cbv zeta. unfold transfer, esp_http_client_perform, bind, ret, fclose, modify.
  destruct (dispatch env _ _) as [[? w1]|]; [|reflexivity].
  destruct (flush_write_buffer env w1) as [[? w2]|]; reflexivity.
Qed.


Lemma accepted_wf (evts : list esp_http_client_event_t) :
  Forall wf_event evts -> accepted evts = received evts.
Proof.
  induction 1 as [|evt rest Hevt _ IH]; [reflexivity|].
  change (accepted (evt :: rest)) with (payload evt + accepted rest).
  rewrite IH. unfold payload. simpl.
  destruct (event_id evt); try lia. now rewrite chunk_size_wf.
Qed.

(** The transfer of one attempt, from the state [open_attempt] leaves: it
    returns the status of the transport, and when no error is latched at
    its end every accepted byte has been handed to the sink. *)
Lemma transfer_spec (w : machine) :
  session_open w ->
  let script := env_http_client_perform env (trace w) in
  exists w' added,
    transfer env w = Some (snd script, w') /\
    trace w' = added ++ trace w /\
    file_handle w' = None /\
    (storage_error w = true -> storage_error w' = true) /\
    (storage_error w' = false ->
     sum_Z (flush_requests added) = buffer_offset w + accepted (fst script) /\
     Forall bounded_flush (flush_requests added)).
Proof.
  intros Hopen script. rewrite transfer_unfold. fold script.
  set (p := E_http_client_perform (fst script) (snd script)).
  destruct (dispatch_spec (fst script) (record p w) Hopen)
    as (w1 & a1 & Hrun1 & Htr1 & Hopen1 & Hlatch1 & Hok1).
  destruct (flush_spec w1 Hopen1)
    as (w2 & a2 & Hrun2 & Htr2 & _ & Hlatch2 & Hzero2 & Hok2).
  rewrite Hrun1, Hrun2.
  exists (set_file_handle None (record E_fclose w2)), (E_fclose :: a2 ++ a1 ++ [p]).
  split; [reflexivity|].
  cbn [trace file_handle storage_error buffer_offset set_file_handle record] in *.
  split; [rewrite Htr2, Htr1; simpl; rewrite <- !app_assoc; reflexivity|].
  split; [reflexivity|].
  split.
  - intros E. rewrite (Hlatch2 (eq_trans (f_equal storage_error (Hlatch1 E)) E)).
    rewrite (Hlatch1 E). exact E.
  - intros E. destruct (Hok2 E) as (E1 & Hsum2 & Hall2).
    destruct (Hok1 E1) as (E0 & Hsum1 & Hall1).
    simpl flush_requests. rewrite !flush_requests_app. simpl (flush_requests [p]).
    rewrite app_nil_r, sum_Z_app. split; [lia | apply Forall_app; auto].
Qed.


Lemma open_attempt_session (w0 w : machine) :
  open_attempt env w0 = Some (None, w) -> session_open w.
Proof.
  intros H. destruct (open_attempt_fresh _ _ H) as (Hfh & _ & _ & Hoff).
  split; [rewrite Hfh; reflexivity | rewrite Hoff; unfold WRITE_BUFFER_SIZE; lia].
Qed.

(** C1 (buffer conservation).  In an attempt that ends with no storage
    error latched, the byte counts handed to the sink by all the flushes of
    the attempt add up to the payload bytes the transport delivered, and
    no flush hands over more than [WRITE_BUFFER_SIZE] bytes.  At each data
    event the buffer is flushed, whole, as many times as the chunk fills
    it, and what is left of the chunk stays in the emptied buffer. *)
Theorem buffer_conservation (w0 w w' : machine) (status : esp_err_t) :
  open_attempt env w0 = Some (None, w) ->
  transfer env w = Some (status, w') ->
  Forall wf_event (fst (env_http_client_perform env (trace w))) ->
  storage_error w' = false ->
  let evts := fst (env_http_client_perform env (trace w)) in
  (exists added,
     trace w' = added ++ trace w /\
     sum_Z (flush_requests added) = received evts /\
     Forall bounded_flush (flush_requests added)) /\
  (forall pre evt post,
     evts = pre ++ evt :: post ->
     event_id evt = HTTP_EVENT_ON_DATA ->
     exists w1 w2,
       dispatch env pre (record (E_http_client_perform evts status) w)
         = Some (tt, w1) /\
       _http_event_handler env evt w1 = Some (ESP_OK, w2) /\
       flush_requests (trace w2) =
         repeat WRITE_BUFFER_SIZE
           (Z.to_nat ((buffer_offset w1 + data_len evt) / WRITE_BUFFER_SIZE))
         ++ flush_requests (trace w1) /\
       buffer_offset w2
         = (buffer_offset w1 + data_len evt) mod WRITE_BUFFER_SIZE).
Proof.
  intros Hopen Hrun Hwf Hok evts.
  pose proof (open_attempt_session _ _ Hopen) as Hsess.
  destruct (open_attempt_fresh _ _ Hopen) as (_ & _ & Herr0 & Hoff0).
  split.
  - destruct (transfer_spec w Hsess) as (w'' & added & Hrun' & Htr & _ & _ & Hacc).
    rewrite Hrun in Hrun'. injection Hrun' as Hst <-.
    exists added. split; [exact Htr|].
    destruct (Hacc Hok) as (Hsum & Hall).
    rewrite Hoff0, (accepted_wf _ Hwf) in Hsum. split; [exact Hsum | exact Hall].
  - intros pre evt post Hsplit Hid.
    rewrite transfer_unfold in Hrun. cbv zeta in Hrun. fold evts in Hrun.
    set (script := env_http_client_perform env (trace w)) in *.
    assert (Hst : forall w1 w2,
               match flush_write_buffer env w1 with
               | Some (_, w2) =>
                   Some (snd script, set_file_handle None (record E_fclose w2))
               | None => None
               end = Some (status, w2) -> snd script = status).
    { intros w1 w2. destruct (flush_write_buffer env w1) as [[? ?]|];
        [intros E; now injection E | discriminate]. }
    destruct (dispatch env evts _) as [[[] w3]|] eqn:Hd in Hrun; [|discriminate].
    rewrite (Hst _ _ Hrun) in Hd.
    set (wp := record (E_http_client_perform evts status) w) in *.
    assert (Hwp : session_open wp) by exact Hsess.
    destruct (dispatch_spec pre wp Hwp)
      as (w1 & a1 & Hrun1 & _ & Hopen1 & _ & _).
    destruct (on_data_spec evt w1 Hopen1)
      as (w2 & a2 & Hrun2 & Htr2 & Hf2 & Ho2 & Hlatch2 & Hok2).
    assert (Hopen2 : session_open w2)
      by (split; [rewrite Hf2; apply Hopen1 | exact Ho2]).
    destruct (dispatch_spec post w2 Hopen2)
      as (w3' & a3 & Hrun3 & _ & Hopen3 & Hlatch3 & Hok3).
    assert (Hh : _http_event_handler env evt w1 = Some (ESP_OK, w2))
      by (rewrite handler_on_data, Hrun2; auto).
    rewrite Hsplit, dispatch_app, Hrun1 in Hd.
    simpl in Hd. unfold bind in Hd. rewrite Hh, Hrun3 in Hd.
    injection Hd as ->.
    destruct (flush_spec w3 Hopen3) as (w4 & a4 & Hrun4 & _ & _ & _ & _ & Hok4).
    rewrite Hrun4 in Hrun. injection Hrun as _ <-.
    cbn [storage_error set_file_handle record] in Hok.
    destruct (Hok4 Hok) as (E3 & _).
    destruct (Hok3 E3) as (E2 & _).
    destruct (Hok2 E2) as (_ & Hreq & Hoff2).
    assert (Hevt : wf_event evt).
    { rewrite Forall_forall in Hwf. apply Hwf. fold evts.
      rewrite Hsplit. apply in_or_app. right. left. reflexivity. }
    rewrite (chunk_size_wf _ Hevt) in Hreq, Hoff2.
    exists w1, w2. split; [exact Hrun1|]. split; [exact Hh|].
    split; [|exact Hoff2].
    rewrite Htr2, flush_requests_app, Hreq. reflexivity.
Qed.


(** ** The retry loop *)

Lemma conclude_cases (attempt : Z) (status : esp_err_t) (w : machine) :
  conclude env attempt status w =
  if (status =? ESP_OK) && negb (storage_error w) then
    Some (Some ESP_OK,
          record E_http_client_cleanup
            (record (E_timer_get_time (env_timer_get_time env (trace w))) w))
  else if storage_error w then
    Some (Some ESP_FAIL, record E_http_client_cleanup w)
  else
    Some (None,
          record E_http_client_cleanup
            (record (E_vTaskDelay_ms (backoff_ms attempt)) w)).
Proof.
  unfold conclude, bind, get.
  destruct ((status =? ESP_OK) && negb (storage_error w)); [reflexivity|].
  destruct (storage_error w); reflexivity.
Qed.

Lemma attempt_body_unfold (attempt : Z) (w : machine) :
  attempt_body env attempt w =
  match open_attempt env w with
  | Some (Some r, w1) => Some (Some r, w1)
  | Some (None, w1) =>
      match transfer env w1 with
      | Some (status, w2) => conclude env attempt status w2
      | None => None
      end
  | None => None
  end.
Proof.
  unfold attempt_body, bind at 1.
  destruct (open_attempt env w) as [[[r|] w1]|]; reflexivity.
Qed.

Lemma for_attempt_step (fuel : nat) (attempt : Z) (w : machine) :
  attempt <= MAX_RETRIES ->
  for_attempt env (S fuel) attempt w =
  match attempt_body env attempt w with
  | Some (Some v, w') => Some (v, w')
  | Some (None, w') => for_attempt env fuel (to_int (attempt + 1)) w'
  | None => None
  end.
Proof.
  intros H. simpl. apply Z.leb_le in H. rewrite H. unfold bind.
  destruct (attempt_body env attempt w) as [[[v|] w']|]; reflexivity.
Qed.

Lemma for_attempt_exit (fuel : nat) (attempt : Z) (w : machine) :
  MAX_RETRIES < attempt ->
  for_attempt env fuel attempt w = Some (ESP_FAIL, w).
Proof.
  intros H. apply Z.leb_gt in H. destruct fuel; simpl; now rewrite H.
Qed.

Lemma next_attempt (attempt : Z) :
  0 <= attempt <= MAX_RETRIES -> to_int (attempt + 1) = attempt + 1.
Proof.
  unfold MAX_RETRIES, to_int. intros H.
  rewrite Z.mod_small by lia. lia.
Qed.

Lemma backoff_ms_exact (attempt : Z) :
  1 <= attempt <= MAX_RETRIES ->
  backoff_ms attempt = BACKOFF_BASE_MS * 2 ^ (attempt - 1).
Proof.
  unfold MAX_RETRIES. intros H.
  assert (attempt = 1 \/ attempt = 2 \/ attempt = 3) as [-> | [-> | ->]] by lia;
    reflexivity.
Qed.


(** ** What each part adds to the trace *)

Lemma schedule_sink (added t : list effect) :
  Forall sink_effect added -> schedule (added ++ t) = schedule t.
Proof.
  induction 1 as [|e added He _ IH]; [reflexivity|].
  destruct e; simpl in He; try contradiction; exact IH.
Qed.

Lemma write_is_sink (l : list effect) :
  Forall write_effect l -> Forall sink_effect l.
Proof.
  apply Forall_impl. intros e. destruct e; simpl; auto.
Qed.

Lemma queries_writes (added t : list effect) :
  Forall write_effect added -> queries (added ++ t) = queries t.
Proof.
  induction 1 as [|e added He _ IH]; [reflexivity|].
  destruct e; simpl in He; try contradiction; exact IH.
Qed.

Lemma flush_effects (w w' : machine) :
  flush_write_buffer env w = Some (tt, w') ->
  exists added, trace w' = added ++ trace w /\ Forall write_effect added.
Proof.
  destruct (non_null (file_handle w) && (0 <? buffer_offset w)
            && negb (storage_error w)) eqn:G.
  - rewrite flush_write_buffer_write by exact G. cbv zeta.
    intros H. injection H as <-.
    set (e := E_fwrite _ _ _). exists [e].
    split; [destruct (_ =? _); reflexivity|].
    constructor; [exact I | constructor].
  - rewrite flush_write_buffer_skip by exact G.
    intros H. injection H as <-. exists []. split; [reflexivity | constructor].
Qed.

Lemma buffer_chunk_effects (fuel : nat) :
  forall (n : Z) (ptr : list byte) (w w' : machine),
    buffer_chunk env fuel n ptr w = Some (tt, w') ->
    exists added, trace w' = added ++ trace w /\ Forall write_effect added.
Proof.
  induction fuel as [|fuel IH]; intros n ptr w w';
    destruct ((0 <? n) && negb (storage_error w)) eqn:G;
    try (rewrite buffer_chunk_done by exact G;
         intros H; injection H as <-; exists [];
         split; [reflexivity | constructor]).
  - simpl. unfold bind, get. rewrite G. discriminate.
  - rewrite buffer_chunk_step by exact G. cbv zeta.
    set (w1 := set_buffer_offset _ _).
    assert (Ht1 : trace w1 = trace w) by reflexivity.
    destruct (buffer_offset w1 =? WRITE_BUFFER_SIZE).
    + destruct (flush_write_buffer env w1) as [[[] w2]|] eqn:Hf; [|discriminate].
      intros Hrun.
      destruct (flush_effects _ _ Hf) as (a1 & Htr1 & Hs1).
      destruct (IH _ _ _ _ Hrun) as (a2 & Htr2 & Hs2).
      exists (a2 ++ a1). split; [|apply Forall_app; auto].
      rewrite Htr2, Htr1, Ht1, app_assoc. reflexivity.
    + intros Hrun. destruct (IH _ _ _ _ Hrun) as (a2 & Htr2 & Hs2).
      exists a2. split; [rewrite Htr2, Ht1; reflexivity | exact Hs2].
Qed.

Lemma on_data_effects (evt : esp_http_client_event_t) (w w' : machine) :
  on_data env evt w = Some (tt, w') ->
  exists added, trace w' = added ++ trace w /\ Forall sink_effect added.
Proof.
  assert (Hskip : Some (tt, w) = Some (tt, w') ->
          exists added, trace w' = added ++ trace w /\ Forall sink_effect added).
  { intros H. injection H as <-. exists []. split; [reflexivity | constructor]. }
  unfold on_data, bind, get.
  destruct (data evt) as [bytes|]; [|exact Hskip].
  destruct ((0 <? data_len evt) && non_null (file_handle w)
            && negb (storage_error w)); [|exact Hskip].
  unfold esp_spiffs_info. cbv zeta.
  set (q := E_spiffs_info _ _ _).
  destruct (_ && _).
  - unfold modify. intros H. injection H as <-.
    exists [q]. split; [reflexivity | repeat constructor].
  - intros Hrun. destruct (buffer_chunk_effects _ _ _ _ _ Hrun) as (a & Htr & Hs).
    exists (a ++ [q]). split; [rewrite Htr, <- app_assoc; reflexivity|].
    apply Forall_app. split; [apply write_is_sink; exact Hs | repeat constructor].
Qed.

Lemma handler_effects (evt : esp_http_client_event_t) (w w' : machine)
      (r : esp_err_t) :
  _http_event_handler env evt w = Some (r, w') ->
  exists added, trace w' = added ++ trace w /\ Forall sink_effect added.
Proof.
  unfold _http_event_handler, bind, ret.
  destruct (event_id evt); cbv beta iota;
    try (intros H; injection H as _ <-; exists [];
         split; [reflexivity | constructor]).
  - destruct (on_data env evt w) as [[[] w1]|] eqn:Hd; [|discriminate].
    intros H. injection H as _ <-. exact (on_data_effects _ _ _ Hd).
  - destruct (flush_write_buffer env w) as [[[] w1]|] eqn:Hf; [|discriminate].
    intros H. injection H as _ <-.
    destruct (flush_effects _ _ Hf) as (a & Htr & Hs).
    exists a. split; [exact Htr | apply write_is_sink; exact Hs].
Qed.

Lemma dispatch_effects (evts : list esp_http_client_event_t) :
  forall w w' : machine,
    dispatch env evts w = Some (tt, w') ->
    exists added, trace w' = added ++ trace w /\ Forall sink_effect added.
Proof.
  induction evts as [|evt rest IH]; intros w w'.
  - simpl. unfold ret. intros H. injection H as <-.
    exists []. split; [reflexivity | constructor].
  - simpl. unfold bind.
    destruct (_http_event_handler env evt w) as [[r w1]|] eqn:Hh; [|discriminate].
    intros Hrun.
    destruct (handler_effects _ _ _ _ Hh) as (a1 & Htr1 & Hs1).
    destruct (IH _ _ Hrun) as (a2 & Htr2 & Hs2).
    exists (a2 ++ a1). split; [|apply Forall_app; auto].
    rewrite Htr2, Htr1, app_assoc. reflexivity.
Qed.

(** The trace of a transfer: the transport call, then calls of the
    callback and of the last flush, then [fclose]. *)
Lemma transfer_effects (w w' : machine) (status : esp_err_t) :
  transfer env w = Some (status, w') ->
  let script := env_http_client_perform env (trace w) in
  status = snd script /\
  exists added,
    trace w' = E_fclose :: added
               ++ E_http_client_perform (fst script) (snd script) :: trace w /\
    Forall sink_effect added.
Proof.
  rewrite transfer_unfold. cbv zeta.
  set (script := env_http_client_perform env (trace w)).
  destruct (dispatch env _ _) as [[[] w1]|] eqn:Hd; [|discriminate].
  destruct (flush_write_buffer env w1) as [[[] w2]|] eqn:Hf; [|discriminate].
  intros H. injection H as <- <-. split; [reflexivity|].
  destruct (dispatch_effects _ _ _ Hd) as (a1 & Htr1 & Hs1).
  destruct (flush_effects _ _ Hf) as (a2 & Htr2 & Hs2).
  exists (a2 ++ a1).
  split; [|apply Forall_app; split; [apply write_is_sink|]; assumption].
  cbn [trace set_file_handle record] in *.
  rewrite Htr2, Htr1, <- app_assoc. reflexivity.
Qed.

Lemma transfer_schedule (w w' : machine) (status : esp_err_t) :
  transfer env w = Some (status, w') ->
  schedule (trace w') = Attempt :: schedule (trace w).
Proof.
  intros H. destruct (transfer_effects _ _ _ H) as (_ & added & Htr & Hs).
  rewrite Htr. simpl. rewrite schedule_sink by exact Hs. reflexivity.
Qed.


Lemma attempts_made_sink (added t : list effect) :
  Forall sink_effect added -> attempts_made (added ++ t) = attempts_made t.
Proof.
  induction 1 as [|e added He _ IH]; [reflexivity|].
  destruct e; simpl in He; try contradiction; exact IH.
Qed.

Lemma open_attempt_trace (w w1 : machine) :
  open_attempt env w = Some (None, w1) ->
  exists now,
    trace w1 = E_timer_get_time now :: E_fopen true :: E_unlink
               :: E_http_client_init true :: trace w.
Proof.
  rewrite open_attempt_cases. cbv zeta.
  destruct (env_http_client_init env _); [|discriminate].
  destruct (env_fopen env _); [|discriminate].
  intros H. injection H as <-. eexists. reflexivity.
Qed.

(** One attempt that fails in the transport, seen in the trace. *)
Lemma failed_attempt_trace (a : Z) (w w1 w2 w3 : machine) (status : esp_err_t) :
  open_attempt env w = Some (None, w1) ->
  transfer env w1 = Some (status, w2) ->
  status <> ESP_OK ->
  storage_error w2 = false ->
  conclude env a status w2 = Some (None, w3) ->
  schedule (trace w3) = Sleep (backoff_ms a) :: Attempt :: schedule (trace w) /\
  attempts_made (trace w3) = S (attempts_made (trace w)).
Proof.
  intros Ho Ht Hs He Hc.
  destruct (open_attempt_trace _ _ Ho) as (now & Htr1).
  destruct (transfer_effects _ _ _ Ht) as (_ & added & Htr2 & Hsink).
  rewrite conclude_cases, He in Hc.
  apply Z.eqb_neq in Hs. rewrite Hs in Hc. cbn [andb negb] in Hc.
  injection Hc as <-. cbn [trace record]. rewrite Htr2, Htr1.
  simpl. rewrite schedule_sink, attempts_made_sink by exact Hsink.
  split; reflexivity.
Qed.

Lemma attempts_from_S (a : Z) (k : nat) :
  attempts_from a (S k) = a :: attempts_from (a + 1) k.
Proof.
  unfold attempts_from. cbn [seq map].
  rewrite <- seq_shift, map_map.
  f_equal; [lia|]. apply map_ext. intros j. lia.
Qed.

(** A run of failed attempts: the loop moves on past them, and the trace
    shows one transport call and one sleep for each. *)
Lemma transport_failures_run (k : nat) (a : Z) (w w' : machine) :
  transport_failures env k a w w' ->
  0 <= a -> a + Z.of_nat k - 1 <= MAX_RETRIES ->
  (forall fuel,
     for_attempt env (k + fuel) a w
     = for_attempt env fuel (a + Z.of_nat k) w') /\
  rev (schedule (trace w')) =
    rev (schedule (trace w))
    ++ flat_map (fun i => [Attempt; Sleep (backoff_ms i)]) (attempts_from a k) /\
  attempts_made (trace w') = (attempts_made (trace w) + k)%nat.
Proof.
  induction 1 as [a w | k a w w1 w2 w3 w' status Ho Ht Hs He Hc Hrest IH];
    intros Ha Hk.
  - split; [intros fuel; simpl; now rewrite Z.add_0_r|].
    split; [simpl; now rewrite app_nil_r | lia].
  - destruct IH as (IHrun & IHsched & IHcount); [lia | lia |].
    destruct (failed_attempt_trace _ _ _ _ _ _ Ho Ht Hs He Hc) as (Hsched & Hcount).
    split; [|split].
    + intros fuel. cbn [Nat.add].
      rewrite for_attempt_step by lia.
      rewrite attempt_body_unfold, Ho, Ht, Hc.
      rewrite next_attempt by lia. rewrite IHrun. f_equal. lia.
    + rewrite IHsched, Hsched, attempts_from_S. simpl.
      rewrite <- !app_assoc. reflexivity.
    + rewrite IHcount, Hcount. lia.
Qed.

(** C4 (exponential backoff).  When the attempts numbered 1 to [k] all
    fail in the transport, the loop has slept [BACKOFF_BASE_MS * 2^(i-1)]
    milliseconds after attempt [i], for each [i] from 1 to [k], before it
    goes on with attempt [k + 1]: the base after the first attempt, twice
    the base after the second, and so on. *)
Theorem exponential_backoff (k : nat) (w w' : machine) :
  transport_failures env k 1 w w' ->
  Z.of_nat k <= MAX_RETRIES ->
  rev (schedule (trace w')) =
    rev (schedule (trace w))
    ++ flat_map (fun i => [Attempt; Sleep (BACKOFF_BASE_MS * 2 ^ (i - 1))])
                (attempts_from 1 k) /\
  https_download_file env w
  = for_attempt env (Z.to_nat MAX_RETRIES - k) (1 + Z.of_nat k) w'.
Proof.
  intros Hrun Hk.
  destruct (transport_failures_run _ _ _ _ Hrun) as (Hloop & Hsched & _);
    [lia | lia |].
  split.
  - rewrite Hsched. clear Hsched. f_equal.
    assert (Hin : forall i, In i (attempts_from 1 k) -> 1 <= i <= MAX_RETRIES).
    { intros i Hi. unfold attempts_from in Hi. apply in_map_iff in Hi.
      destruct Hi as (j & <- & Hj). apply in_seq in Hj. lia. }
    induction (attempts_from 1 k) as [|i l IHl]; [reflexivity|].
    simpl. rewrite backoff_ms_exact by (apply Hin; left; reflexivity).
    rewrite IHl by (intros; apply Hin; right; assumption). reflexivity.
  - unfold https_download_file.
    replace (Z.to_nat MAX_RETRIES) with (k + (Z.to_nat MAX_RETRIES - k))%nat at 1
      by lia.
    apply Hloop.
Qed.

(** C5 (retry exhaustion).  When [MAX_RETRIES] attempts in a row, from the
    first, fail in the transport with no storage error latched, the
    download returns [ESP_FAIL] right after the last of them: it has made
    exactly [MAX_RETRIES] transport calls and makes no other. *)
Theorem retry_exhaustion (w w' : machine) :
  transport_failures env (Z.to_nat MAX_RETRIES) 1 w w' ->
  https_download_file env w = Some (ESP_FAIL, w') /\
  attempts_made (trace w')
  = (attempts_made (trace w) + Z.to_nat MAX_RETRIES)%nat.
Proof.
  intros Hrun.
  destruct (transport_failures_run _ _ _ _ Hrun) as (Hloop & _ & Hcount);
    [lia | unfold MAX_RETRIES; lia |].
  split; [|exact Hcount].
  unfold https_download_file.
  rewrite <- (Nat.add_0_r (Z.to_nat MAX_RETRIES)) at 1.
  rewrite Hloop. apply for_attempt_exit. unfold MAX_RETRIES. lia.
Qed.


(** X10 (nothing after a storage error).  A storage error latched at any
    point of the transfer is still latched
    when the attempt is decided: later events and the last flush do not
    touch the machine. *)
Lemma latched_until_decision
      (w w1 : machine) (pre post : list esp_http_client_event_t) :
  let script := env_http_client_perform env (trace w) in
  fst script = pre ++ post ->
  dispatch env pre (record (E_http_client_perform (fst script) (snd script)) w)
  = Some (tt, w1) ->
  storage_error w1 = true ->
  transfer env w
  = Some (snd script, set_file_handle None (record E_fclose w1)).
Proof.
  intros script Hsplit Hpre Herr.
  rewrite transfer_unfold. cbv zeta. fold script.
  rewrite Hsplit at 1. rewrite dispatch_app.
  rewrite Hpre, dispatch_latched by exact Herr.
  rewrite flush_write_buffer_skip; [reflexivity|].
  rewrite Herr. apply andb_false_r.
Qed.

(** C2 (no retry on storage failure).  Whatever the number of the attempt
    and whatever status the transport returned, an attempt that reaches the
    decision with [storage_error] latched ends the download: the client is
    released and [ESP_FAIL] returned, with no sleep and no other attempt. *)
Theorem storage_failure_not_retried
        (fuel : nat) (a : Z) (w w1 w2 : machine) (status : esp_err_t) :
  a <= MAX_RETRIES ->
  open_attempt env w = Some (None, w1) ->
  transfer env w1 = Some (status, w2) ->
  storage_error w2 = true ->
  for_attempt env (S fuel) a w
  = Some (ESP_FAIL, record E_http_client_cleanup w2) /\
  schedule (trace (record E_http_client_cleanup w2))
  = Attempt :: schedule (trace w).
Proof.
  intros Ha Ho Ht He. split.
  - rewrite for_attempt_step by exact Ha.
    rewrite attempt_body_unfold, Ho, Ht, conclude_cases, He.
    cbn [negb]. rewrite andb_false_r. reflexivity.
  - destruct (open_attempt_trace _ _ Ho) as (now & Htr1).
    cbn [trace record schedule].
    rewrite (transfer_schedule _ _ _ Ht), Htr1. reflexivity.
Qed.

(** A failure of the transport on the last attempt: the loop still sleeps,
    [backoff_ms MAX_RETRIES] milliseconds, before it returns. *)
Lemma last_attempt_backoff (fuel : nat) (w w1 w2 : machine) (status : esp_err_t) :
  open_attempt env w = Some (None, w1) ->
  transfer env w1 = Some (status, w2) ->
  status <> ESP_OK ->
  storage_error w2 = false ->
  for_attempt env (S fuel) MAX_RETRIES w
  = Some (ESP_FAIL,
          record E_http_client_cleanup
            (record (E_vTaskDelay_ms (backoff_ms MAX_RETRIES)) w2)).
Proof.
  intros Ho Ht Hs He.
  rewrite for_attempt_step by lia.
  rewrite attempt_body_unfold, Ho, Ht, conclude_cases, He.
  apply Z.eqb_neq in Hs. rewrite Hs. cbn [andb negb].
  apply for_attempt_exit. reflexivity.
Qed.

(** C7 (no carry-over between attempts).  An attempt either returns before
    any transport call, or makes its transport call from a machine in which
    [total_bytes] is 0, [storage_error] is false and [buffer_offset] is 0,
    whatever the machine was when the attempt began. *)
Theorem no_cross_attempt_carry_over (a : Z) (w : machine) :
  match open_attempt env w with
  | Some (None, w1) =>
      (total_bytes w1 = 0 /\ storage_error w1 = false /\ buffer_offset w1 = 0)
      /\ attempt_body env a w
         = bind (esp_http_client_perform env)
             (fun status =>
                bind (flush_write_buffer env) (fun _ =>
                bind fclose (fun _ =>
                bind (modify (set_file_handle None)) (fun _ =>
                conclude env a status)))) w1
  | Some (Some r, w1) =>
      attempt_body env a w = Some (Some r, w1) /\
      attempts_made (trace w1) = attempts_made (trace w)
  | None => False
  end.
Proof.
  rewrite attempt_body_unfold.
  pose proof (open_attempt_fresh w) as Hfresh.
  rewrite open_attempt_cases in *. cbv zeta in *.
  destruct (env_http_client_init env (trace w)).
  - destruct (env_fopen env _).
    + split; [destruct (Hfresh _ eq_refl) as (_ & ? & ? & ?); auto|].
      unfold transfer, bind, ret.
      destruct (esp_http_client_perform env _) as [[st w2]|]; [|reflexivity].
      destruct (flush_write_buffer env w2) as [[? w3]|]; reflexivity.
    + split; reflexivity.
  - split; reflexivity.
Qed.

(** C8 (a sink that cannot be opened is fatal).  In every attempt that gets
    a client, the destination is unlinked and then opened.  When the open
    fails the download returns [ESP_FAIL] at once: after the failed open
    there is only the release of the client, so no transport call, no
    sleep and no other attempt. *)
Theorem storage_open_failure_fatal (fuel : nat) (a : Z) (w : machine) :
  a <= MAX_RETRIES ->
  env_http_client_init env (trace w) = true ->
  let t1 := E_unlink :: E_http_client_init true :: trace w in
  (exists r w1 next,
     open_attempt env w = Some (r, w1) /\
     trace w1 = next :: E_fopen (env_fopen env t1) :: t1) /\
  (env_fopen env t1 = false ->
   exists w',
     for_attempt env (S fuel) a w = Some (ESP_FAIL, w') /\
     trace w' = E_http_client_cleanup :: E_fopen false :: t1 /\
     schedule (trace w') = schedule (trace w)).
Proof.
  intros Ha Hinit t1. split.
  - rewrite open_attempt_cases, Hinit. cbv zeta. fold t1.
    destruct (env_fopen env t1); eexists _, _, _; split; reflexivity.
  - intros Hopen. rewrite for_attempt_step by exact Ha.
    rewrite attempt_body_unfold, open_attempt_cases, Hinit. cbv zeta.
    fold t1. rewrite Hopen. eexists. split; [reflexivity|].
    split; reflexivity.
Qed.

(** C9 (a flush that fails discards the buffer).  A flush that writes (sink
    open, buffer not empty, no error latched) hands the buffered bytes to
    the sink once and empties the buffer whether or not the sink took them
    all.  When the sink reports another count than was asked for,
    [storage_error] is set, [total_bytes] keeps its value, and the bytes
    are gone: a later flush does nothing. *)
Theorem flush_discards_on_failure (w : machine) :
  file_handle w <> None ->
  0 < buffer_offset w ->
  storage_error w = false ->
  let buf := firstn (Z.to_nat (buffer_offset w)) (write_buffer w) in
  let written := env_fwrite env (trace w) buf (buffer_offset w) in
  exists w',
    flush_write_buffer env w = Some (tt, w') /\
    trace w' = E_fwrite buf (buffer_offset w) written :: trace w /\
    buffer_offset w' = 0 /\
    (written <> buffer_offset w ->
     storage_error w' = true /\ total_bytes w' = total_bytes w /\
     flush_write_buffer env w' = Some (tt, w')) /\
    (written = buffer_offset w ->
     storage_error w' = false /\
     total_bytes w' = size_add (total_bytes w) written).
Proof.
  intros Hfh Hpos Herr buf written.
  rewrite flush_write_buffer_write.
  2:{ rewrite Herr. destruct (file_handle w); [|congruence].
      apply Z.ltb_lt in Hpos. rewrite Hpos. reflexivity. }
  cbv zeta. fold buf. fold written.
  eexists. split; [reflexivity|].
  destruct (Z.eqb_spec written (buffer_offset w)) as [E|E];
    cbn [trace buffer_offset storage_error total_bytes set_buffer_offset
         set_total_bytes set_storage_error record];
    (split; [reflexivity|]); (split; [reflexivity|]); split;
    try (intros; congruence).
  - intros _. split; [exact Herr | reflexivity].
  - intros _. split; [reflexivity|]. split; [reflexivity|].
    apply flush_write_buffer_skip.
    cbn [file_handle buffer_offset storage_error set_buffer_offset
         set_storage_error record].
    apply andb_false_r.
Qed.


(** A data event with a payload, on an open session with no error latched:
    the free space is asked for, and the chunk goes to the copy loop unless
    the answer is a success that shows too little room. *)
Lemma on_data_accepts (evt : esp_http_client_event_t) (bytes : list byte)
      (w : machine) :
  data evt = Some bytes -> 0 < data_len evt ->
  non_null (file_handle w) = true -> storage_error w = false ->
  let info := env_spiffs_info env (trace w) in
  let q := E_spiffs_info (fst info) (fst (snd info)) (snd (snd info)) in
  let n := to_size_t (data_len evt) in
  on_data env evt w =
  if (fst info =? ESP_OK)
     && (size_sub (fst (snd info)) (snd (snd info)) <? n)
  then Some (tt, set_storage_error true (record q w))
  else buffer_chunk env (Z.to_nat n) n bytes (record q w).
Proof.
  intros Hd Hlen Hfh Herr. cbv zeta.
  unfold on_data, bind, get. rewrite Hd, Hfh, Herr.
  apply Z.ltb_lt in Hlen. rewrite Hlen. cbn [andb negb].
  unfold esp_spiffs_info. cbv zeta.
  destruct (_ && _); reflexivity.
Qed.


(** C6, as amended (latching and suppression).  On an open session: once
    [storage_error] is set every event, every run of events and the last
    flush leave the machine as it is, so the flag stays set and neither the
    buffer nor the byte counter moves.
    While it is unset, every data event that carries a payload (pointer
    set, positive length) asks the file system for its free space, once
    and at that moment; when the query succeeds and reports less free
    space than the chunk is long, the flag is set and nothing else
    changes: the chunk is not buffered. *)
Theorem storage_error_latching (w : machine) :
  session_open w ->
  (storage_error w = true ->
   (forall e, _http_event_handler env e w = Some (ESP_OK, w)) /\
   (forall evts, dispatch env evts w = Some (tt, w)) /\
   flush_write_buffer env w = Some (tt, w)) /\
  (storage_error w = false ->
   forall evt bytes,
     event_id evt = HTTP_EVENT_ON_DATA ->
     data evt = Some bytes -> 0 < data_len evt ->
     let info := env_spiffs_info env (trace w) in
     let q := E_spiffs_info (fst info) (fst (snd info)) (snd (snd info)) in
     let free_space := size_sub (fst (snd info)) (snd (snd info)) in
     exists w' later,
       _http_event_handler env evt w = Some (ESP_OK, w') /\
       trace w' = later ++ q :: trace w /\
       queries (trace w') = S (queries (trace w)) /\
       (fst info = ESP_OK -> free_space < to_size_t (data_len evt) ->
        w' = set_storage_error true (record q w))).
Proof.
  intros [Hfh Hoff]. split.
  - intros Herr. split; [|split].
    + intros e. apply handler_latched. exact Herr.
    + intros evts. apply dispatch_latched. exact Herr.
    + apply flush_write_buffer_skip. rewrite Herr. apply andb_false_r.
  - intros Herr evt bytes Hid Hd Hlen info q free_space.
    rewrite handler_on_data by exact Hid.
    pose proof (on_data_accepts evt bytes w Hd Hlen Hfh Herr) as Hrun.
    cbv zeta in Hrun. fold info q free_space in Hrun. rewrite Hrun.
    set (n := to_size_t (data_len evt)).
    destruct ((fst info =? ESP_OK) && (free_space <? n)) eqn:Hlow.
    + exists (set_storage_error true (record q w)), [].
      repeat split; reflexivity.
    + pose proof (to_size_t_range (data_len evt)) as Hn. fold n in Hn.
      destruct (buffer_chunk_spec (Z.to_nat n) n bytes (record q w))
        as (w' & added & Hloop & Htr & _);
        cbn [trace file_handle buffer_offset storage_error record];
        auto; try lia.
      destruct (buffer_chunk_effects _ _ _ _ _ Hloop) as (added' & Htr' & Hw).
      cbn [trace record] in *.
      exists w', added'. rewrite Hloop. split; [reflexivity|].
      split; [exact Htr'|]. split.
      * rewrite Htr'. rewrite queries_writes by exact Hw. reflexivity.
      * intros Hok Hfree. apply Z.eqb_eq in Hok. apply Z.ltb_lt in Hfree.
        rewrite Hok, Hfree in Hlow. discriminate.
Qed.

(** ** The bytes that reach the sink *)

Lemma firstn_plus {A : Type} (a b : nat) (l : list A) :
  firstn (a + b) l = firstn a l ++ firstn b (skipn a l).
Proof.
  revert l. induction a as [|a IH]; intros l; [reflexivity|].
  destruct l as [|x l]; simpl; [now rewrite firstn_nil | now rewrite IH].
Qed.

Lemma memcpy_length (dst src : list byte) (off n : Z) :
  0 <= off -> 0 <= n ->
  off + n <= Z.of_nat (length dst) -> n <= Z.of_nat (length src) ->
  length (memcpy dst off src n) = length dst.
Proof.
  intros Ho Hn Hd Hs. unfold memcpy.
  rewrite !length_app, !length_firstn, length_skipn. lia.
Qed.

Lemma memcpy_prefix (dst src : list byte) (off n : Z) :
  0 <= off -> 0 <= n ->
  off + n <= Z.of_nat (length dst) -> n <= Z.of_nat (length src) ->
  firstn (Z.to_nat (off + n)) (memcpy dst off src n)
  = firstn (Z.to_nat off) dst ++ firstn (Z.to_nat n) src.
Proof.
  intros Ho Hn Hd Hs. unfold memcpy. rewrite app_assoc.
  rewrite firstn_app.
  replace (Z.to_nat (off + n)
           - length (firstn (Z.to_nat off) dst ++ firstn (Z.to_nat n) src))%nat
    with O by (rewrite length_app, !length_firstn; lia).
  rewrite firstn_O, app_nil_r. apply firstn_all2.
  rewrite length_app, !length_firstn. lia.
Qed.

(** The copy loop neither loses nor reorders bytes. *)
Lemma buffer_chunk_content (fuel : nat) :
  forall (n : Z) (ptr : list byte) (w w' : machine),
    non_null (file_handle w) = true ->
    0 <= buffer_offset w < WRITE_BUFFER_SIZE ->
    buffer_allocated w ->
    0 <= n <= Z.of_nat (length ptr) -> n < SIZE_MODULUS ->
    buffer_chunk env fuel n ptr w = Some (tt, w') ->
    storage_error w' = false ->
    flushed_bytes (trace w') ++ pending w'
    = flushed_bytes (trace w) ++ pending w ++ firstn (Z.to_nat n) ptr /\
    buffer_allocated w'.
Proof.
  pose proof buffer_size_fits as HB.
  induction fuel as [|fuel IH]; intros n ptr w w' Hfh Hoff Hbuf Hn Hmax;
    destruct ((0 <? n) && negb (storage_error w)) eqn:G;
    try (rewrite buffer_chunk_done by exact G;
         intros H Herr; injection H as <-;
         rewrite Herr, andb_true_r in G; apply Z.ltb_ge in G;
         replace n with 0 by lia; simpl; rewrite !app_nil_r; auto).
  - simpl. unfold bind, get. rewrite G. discriminate.
  - apply andb_true_iff in G as [Hpos Herr0].
    apply Z.ltb_lt in Hpos. apply negb_true_iff in Herr0.
    rewrite buffer_chunk_step
      by (rewrite Herr0; apply andb_true_iff; split;
          [apply Z.ltb_lt; lia | reflexivity]).
    cbv zeta. cbn [buffer_offset set_buffer_offset set_write_buffer].
    rewrite (size_sub_exact WRITE_BUFFER_SIZE) by lia.
    unfold buffer_allocated in Hbuf.
    destruct (Z.ltb_spec n (WRITE_BUFFER_SIZE - buffer_offset w)) as [Hlt|Hge].
    + rewrite size_add_exact by lia.
      destruct (Z.eqb_spec (buffer_offset w + n) WRITE_BUFFER_SIZE) as [E|_];
        [lia|].
      rewrite buffer_chunk_done
        by (rewrite size_sub_exact by lia; rewrite Z.sub_diag; reflexivity).
      intros H _. injection H as <-.
      unfold pending, buffer_allocated.
      cbn [trace buffer_offset write_buffer set_buffer_offset set_write_buffer].
      rewrite memcpy_prefix, memcpy_length by lia. auto.
    + rewrite size_add_exact by lia.
      replace (buffer_offset w + (WRITE_BUFFER_SIZE - buffer_offset w))
        with WRITE_BUFFER_SIZE by lia.
      rewrite Z.eqb_refl.
      rewrite flush_write_buffer_write
        by (cbn [file_handle buffer_offset storage_error
                 set_buffer_offset set_write_buffer];
            rewrite Hfh, Herr0;
            replace (0 <? WRITE_BUFFER_SIZE) with true by reflexivity;
            reflexivity).
      cbv zeta.
      cbn [trace file_handle buffer_offset storage_error total_bytes
           write_buffer set_buffer_offset set_write_buffer].
      set (c := WRITE_BUFFER_SIZE - buffer_offset w).
      set (filled := memcpy (write_buffer w) (buffer_offset w) ptr c).
      set (buf := firstn (Z.to_nat WRITE_BUFFER_SIZE) filled).
      set (written := env_fwrite env (trace w) buf WRITE_BUFFER_SIZE).
      assert (Hbuf' : buf = pending w ++ firstn (Z.to_nat c) ptr).
      { unfold buf, filled, pending.
        replace WRITE_BUFFER_SIZE with (buffer_offset w + c) at 1
          by (unfold c; lia).
        apply memcpy_prefix; unfold c; lia. }
      assert (Hlen : length filled = length (write_buffer w))
        by (apply memcpy_length; unfold c; lia).
      assert (Hn' : size_sub n c = n - c)
        by (apply size_sub_exact; unfold c; lia).
      rewrite Hn'.
      destruct (Z.eqb_spec written WRITE_BUFFER_SIZE) as [Hw|Hw].
      * intros Hrun Herr.
        match type of Hrun with
        | buffer_chunk env fuel _ ?p ?s = _ =>
            destruct (IH (n - c) p s w') as [Hbytes Halloc]
        end;
          cbn [trace file_handle buffer_offset storage_error write_buffer
               set_buffer_offset set_total_bytes set_write_buffer record];
          auto; try lia.
        -- unfold buffer_allocated.
           cbn [write_buffer set_buffer_offset set_total_bytes
                set_write_buffer record].
           rewrite Hlen. exact Hbuf.
        -- rewrite length_skipn. unfold c. lia.
        -- split; [|exact Halloc].
           rewrite Hbytes. unfold pending at 1.
           cbn [buffer_offset write_buffer set_buffer_offset set_total_bytes
                record].
           simpl firstn at 1. rewrite Hbuf'.
           cbn [flushed_bytes trace set_buffer_offset set_total_bytes
                set_write_buffer record app].
           rewrite <- !app_assoc. do 2 f_equal.
           replace (Z.to_nat n) with (Z.to_nat c + Z.to_nat (n - c))%nat
             by (unfold c; lia).
           symmetry. apply firstn_plus.
      * rewrite buffer_chunk_done
          by (cbn [storage_error set_buffer_offset set_storage_error];
              apply andb_false_r).
        intros H Herr. injection H as <-. discriminate Herr.
Qed.

Lemma flush_content (w w' : machine) :
  flush_write_buffer env w = Some (tt, w') ->
  storage_error w' = false ->
  flushed_bytes (trace w') ++ pending w'
  = flushed_bytes (trace w) ++ pending w /\
  write_buffer w' = write_buffer w.
Proof.
  destruct (non_null (file_handle w) && (0 <? buffer_offset w)
            && negb (storage_error w)) eqn:G.
  - rewrite flush_write_buffer_write by exact G. cbv zeta.
    intros H. injection H as <-.
    destruct (_ =? _);
      cbn [storage_error set_buffer_offset set_total_bytes set_storage_error
           record]; [|discriminate].
    intros _. unfold pending.
    cbn [trace buffer_offset write_buffer set_buffer_offset set_total_bytes
         record flushed_bytes].
    simpl firstn at 1. rewrite app_nil_r. auto.
  - rewrite flush_write_buffer_skip by exact G.
    intros H Herr. injection H as <-. split; reflexivity.
Qed.

(** The bytes of the payload of an event. *)
Lemma on_data_content (evt : esp_http_client_event_t) (w w' : machine) :
  wf_event evt -> session_open w -> buffer_allocated w ->
  on_data env evt w = Some (tt, w') ->
  storage_error w' = false ->
  flushed_bytes (trace w') ++ pending w'
  = flushed_bytes (trace w) ++ pending w
    ++ match data evt with Some bytes => bytes | None => [] end /\
  buffer_allocated w'.
Proof.
  intros [Hdata Hrange] [Hfh Hoff] Hbuf.
  destruct (data evt) as [bytes|] eqn:Hd.
  2:{ unfold on_data, bind, get. rewrite Hd.
      intros H _. injection H as <-. rewrite !app_nil_r. auto. }
  destruct (Z.ltb_spec 0 (data_len evt)) as [Hpos|Hzero].
  2:{ unfold on_data, bind, get. rewrite Hd.
      replace (0 <? data_len evt) with false by (symmetry; apply Z.ltb_ge; lia).
      intros H _. injection H as <-.
      assert (bytes = []) as -> by (apply length_zero_iff_nil; lia).
      rewrite !app_nil_r. auto. }
  destruct (storage_error w) eqn:Herr0.
  { unfold on_data, bind, get. rewrite Hd, Herr0. cbn [negb].
    rewrite andb_false_r. intros H Herr. injection H as <-. congruence. }
  rewrite (on_data_accepts evt bytes w Hd Hpos Hfh Herr0). cbv zeta.
  assert (Hn : to_size_t (data_len evt) = data_len evt)
    by (unfold to_size_t, SIZE_MODULUS; apply Z.mod_small; lia).
  rewrite Hn.
  destruct (_ && _).
  - intros H Herr. injection H as <-. discriminate Herr.
  - intros Hrun Herr.
    apply buffer_chunk_content in Hrun;
      cbn [trace file_handle buffer_offset storage_error write_buffer record];
      auto; try (unfold SIZE_MODULUS; lia).
    destruct Hrun as [Hbytes Halloc]. split; [|exact Halloc].
    rewrite Hbytes. unfold pending.
    cbn [trace buffer_offset write_buffer record flushed_bytes].
    rewrite Hdata, Nat2Z.id, firstn_all. reflexivity.
Qed.

Lemma dispatch_content (evts : list esp_http_client_event_t) :
  forall w w' : machine,
    Forall wf_event evts -> session_open w -> buffer_allocated w ->
    dispatch env evts w = Some (tt, w') ->
    storage_error w' = false ->
    flushed_bytes (trace w') ++ pending w'
    = flushed_bytes (trace w) ++ pending w ++ received_bytes evts /\
    buffer_allocated w'.
Proof.
  induction evts as [|evt rest IH]; intros w w' Hwf Hopen Hbuf.
  - simpl. unfold ret. intros H _. injection H as <-.
    rewrite !app_nil_r. auto.
  - inversion Hwf as [|? ? Hevt Hrest]; subst.
    destruct (handler_spec evt w Hopen)
      as (w1 & a1 & Hrun1 & _ & Hopen1 & Hlatch1 & _).
    simpl dispatch. unfold bind at 1. rewrite Hrun1.
    intros Hrun Herr.
    assert (Herr1 : storage_error w1 = false).
    { destruct (storage_error w1) eqn:E; [|reflexivity].
      rewrite dispatch_latched in Hrun by exact E.
      injection Hrun as <-. congruence. }
    assert (Hstep :
      flushed_bytes (trace w1) ++ pending w1
      = flushed_bytes (trace w) ++ pending w
        ++ match event_id evt, data evt with
           | HTTP_EVENT_ON_DATA, Some bytes => bytes
           | _, _ => []
           end /\ buffer_allocated w1).
    { revert Hrun1. unfold _http_event_handler, bind, ret.
      destruct (event_id evt); cbv beta iota;
        try (intros H; injection H as <-; rewrite !app_nil_r; auto).
      - destruct (on_data env evt w) as [[[] w2]|] eqn:Hd; [|discriminate].
        intros H. injection H as <-.
        exact (on_data_content evt w w2 Hevt Hopen Hbuf Hd Herr1).
      - destruct (flush_write_buffer env w) as [[[] w2]|] eqn:Hf; [|discriminate].
        intros H. injection H as <-.
        destruct (flush_content _ _ Hf Herr1) as (Hbytes & Hsame).
        rewrite app_nil_r. split; [exact Hbytes|].
        unfold buffer_allocated. rewrite Hsame. exact Hbuf. }
    destruct Hstep as [Hb1 Ha1].
    destruct (IH w1 w' Hrest Hopen1 Ha1 Hrun Herr) as [Hb2 Ha2].
    split; [|exact Ha2].
    rewrite Hb2, app_assoc, Hb1, <- !app_assoc. do 2 f_equal.
    simpl. destruct (event_id evt); try reflexivity.
    destruct (data evt); reflexivity.
Qed.

(** X1 (the stream is conserved).  What reaches the sink in an attempt
    that ends with no storage error is
    the payload the transport delivered: every byte, once, in order. *)
Theorem stream_conservation (w0 w w' : machine) (status : esp_err_t) :
  buffer_allocated w0 ->
  open_attempt env w0 = Some (None, w) ->
  transfer env w = Some (status, w') ->
  Forall wf_event (fst (env_http_client_perform env (trace w))) ->
  storage_error w' = false ->
  flushed_bytes (trace w')
  = flushed_bytes (trace w)
    ++ received_bytes (fst (env_http_client_perform env (trace w))).
Proof.
  intros Hbuf0 Ho Ht Hwf Herr.
  pose proof (open_attempt_session _ _ Ho) as Hopen.
  destruct (open_attempt_fresh _ _ Ho) as (_ & _ & Herr0 & Hoff0).
  assert (Hbuf : buffer_allocated w).
  { revert Ho. rewrite open_attempt_cases. cbv zeta.
    destruct (env_http_client_init env _); [|discriminate].
    destruct (env_fopen env _); [|discriminate].
    intros H. injection H as <-. exact Hbuf0. }
  rewrite transfer_unfold in Ht. cbv zeta in Ht.
  set (script := env_http_client_perform env (trace w)) in *.
  set (wp := record (E_http_client_perform (fst script) (snd script)) w) in *.
  destruct (dispatch env (fst script) wp) as [[[] w1]|] eqn:Hd; [|discriminate].
  destruct (flush_write_buffer env w1) as [[[] w2]|] eqn:Hf; [|discriminate].
  injection Ht as _ <-.
  cbn [trace storage_error set_file_handle record flushed_bytes] in *.
  destruct (flush_content _ _ Hf Herr) as (Hb2 & _).
  destruct (flush_spec w1) as (w2' & a2 & Hf' & _ & _ & _ & Hzero & Hok2).
  { destruct (dispatch_spec (fst script) wp Hopen) as (w1' & ? & Hd' & _ & H & _).
    rewrite Hd in Hd'. injection Hd' as <-. exact H. }
  rewrite Hf in Hf'. injection Hf' as <-.
  destruct (Hok2 Herr) as (Herr1 & _).
  destruct (dispatch_content (fst script) wp w1 Hwf Hopen Hbuf Hd Herr1)
    as [Hb1 _].
  assert (Hp2 : pending w2 = []).
  { unfold pending. rewrite (Hzero Herr1). reflexivity. }
  rewrite Hp2, app_nil_r in Hb2. rewrite Hb2, Hb1.
  unfold pending at 1. unfold wp at 2 3.
  cbn [trace buffer_offset write_buffer record flushed_bytes].
  rewrite Hoff0. reflexivity.
Qed.

(** ** Termination *)

Lemma attempt_body_returns (a : Z) (w : machine) :
  exists r w',
    attempt_body env a w = Some (r, w') /\
    (attempts_made (trace w') <= S (attempts_made (trace w)))%nat.
Proof.
  rewrite attempt_body_unfold.
  destruct (open_attempt env w) as [[[r|] w1]|] eqn:Ho.
  - exists (Some r), w1. split; [reflexivity|].
    rewrite open_attempt_cases in Ho. cbv zeta in Ho.
    destruct (env_http_client_init env _);
      [destruct (env_fopen env _)|]; try discriminate;
      injection Ho as _ <-; simpl; lia.
  - destruct (open_attempt_trace _ _ Ho) as (now & Htr1).
    destruct (transfer_spec w1 (open_attempt_session _ _ Ho))
      as (w2 & added & Ht & _).
    destruct (transfer_effects _ _ _ Ht) as (_ & a2 & Htr2 & Hs).
    rewrite Ht, conclude_cases.
    assert (Hcount : attempts_made (trace w2) = S (attempts_made (trace w))).
    { rewrite Htr2, Htr1. simpl. rewrite attempts_made_sink by exact Hs.
      reflexivity. }
    destruct (_ && _); [|destruct (storage_error w2)];
      eexists _, _; (split; [reflexivity|]); simpl; lia.
  - rewrite open_attempt_cases in Ho. cbv zeta in Ho.
    destruct (env_http_client_init env _);
      [destruct (env_fopen env _)|]; discriminate.
Qed.

Lemma for_attempt_returns (fuel : nat) :
  forall (a : Z) (w : machine),
    0 <= a -> (Z.to_nat (MAX_RETRIES + 1 - a) <= fuel)%nat ->
    exists r w',
      for_attempt env fuel a w = Some (r, w') /\
      (attempts_made (trace w')
       <= attempts_made (trace w) + Z.to_nat (MAX_RETRIES + 1 - a))%nat.
Proof.
  induction fuel as [|fuel IH]; intros a w Ha Hfuel.
  - exists ESP_FAIL, w. rewrite for_attempt_exit by lia. split; [reflexivity | lia].
  - destruct (Z_lt_le_dec MAX_RETRIES a) as [Hgt|Hle].
    + exists ESP_FAIL, w. rewrite for_attempt_exit by lia.
      split; [reflexivity | lia].
    + rewrite for_attempt_step by exact Hle.
      destruct (attempt_body_returns a w) as ([v|] & w1 & Hb & Hc1); rewrite Hb.
      * exists v, w1. split; [reflexivity | lia].
      * rewrite next_attempt by lia.
        destruct (IH (a + 1) w1) as (r & w' & Hr & Hc); [lia | lia |].
        exists r, w'. split; [exact Hr | lia].
Qed.

(** X2 (termination).  The download always returns, after at most
    [MAX_RETRIES] transport
    calls. *)
Theorem https_download_file_returns (w : machine) :
  exists r w',
    https_download_file env w = Some (r, w') /\
    (attempts_made (trace w')
     <= attempts_made (trace w) + Z.to_nat MAX_RETRIES)%nat.
Proof.
  destruct (for_attempt_returns (Z.to_nat MAX_RETRIES) 1 w) as (r & w' & H & Hc);
    [lia | unfold MAX_RETRIES; lia |].
  exists r, w'. split; [exact H|].
  replace (MAX_RETRIES + 1 - 1) with MAX_RETRIES in Hc by lia. exact Hc.
Qed.

(** ** Running the model on a scenario *)

Lemma after_run {A : Type} (m : M A) (w : machine) (r : A) :
  option_map fst (m w) = Some r -> m w = Some (r, after m w).
Proof.
  unfold after. destruct (m w) as [[a w']|]; simpl; [|discriminate].
  intros H. injection H as ->. reflexivity.
Qed.

Lemma wf_chunk (n : nat) : Z.of_nat n < 2 ^ 31 -> wf_event (chunk n).
Proof.
  intros H. split; simpl; [now rewrite repeat_length | lia].
Qed.

Lemma wf_finish : wf_event finish.
Proof. split; simpl; lia. Qed.

End Properties.

Section Further.

Variable env : Env.

(** ** The buffer stays within the array *)

Lemma buffer_chunk_allocated (fuel : nat) :
  forall (n : Z) (ptr : list byte) (w w' : machine),
    non_null (file_handle w) = true ->
    0 <= buffer_offset w < WRITE_BUFFER_SIZE ->
    buffer_allocated w ->
    0 <= n <= Z.of_nat (length ptr) -> n < SIZE_MODULUS ->
    buffer_chunk env fuel n ptr w = Some (tt, w') ->
    buffer_allocated w'.
Proof.
  pose proof buffer_size_fits as HB.
  induction fuel as [|fuel IH]; intros n ptr w w' Hfh Hoff Hbuf Hn Hmax;
    destruct ((0 <? n) && negb (storage_error w)) eqn:G;
    try (rewrite buffer_chunk_done by exact G;
         intros H; injection H as <-; exact Hbuf).
  - simpl. unfold bind, get. rewrite G. discriminate.
  - pose proof G as G'.
    apply andb_true_iff in G' as [Hpos Herr0].
    apply Z.ltb_lt in Hpos. apply negb_true_iff in Herr0.
    rewrite buffer_chunk_step by exact G.
    cbv zeta. cbn [buffer_offset set_buffer_offset set_write_buffer].
    rewrite (size_sub_exact WRITE_BUFFER_SIZE) by lia.
    unfold buffer_allocated in Hbuf.
    destruct (Z.ltb_spec n (WRITE_BUFFER_SIZE - buffer_offset w)) as [Hlt|Hge].
    + rewrite size_add_exact by lia.
      destruct (Z.eqb_spec (buffer_offset w + n) WRITE_BUFFER_SIZE) as [E|_];
        [lia|].
      rewrite buffer_chunk_done
        by (rewrite size_sub_exact by lia; rewrite Z.sub_diag; reflexivity).
      intros H. injection H as <-. unfold buffer_allocated.
      cbn [write_buffer set_buffer_offset set_write_buffer].
      rewrite memcpy_length by lia. exact Hbuf.
    + rewrite size_add_exact by lia.
      replace (buffer_offset w + (WRITE_BUFFER_SIZE - buffer_offset w))
        with WRITE_BUFFER_SIZE by lia.
      rewrite Z.eqb_refl.
      rewrite flush_write_buffer_write
        by (cbn [file_handle buffer_offset storage_error
                 set_buffer_offset set_write_buffer];
            rewrite Hfh, Herr0;
            replace (0 <? WRITE_BUFFER_SIZE) with true by reflexivity;
            reflexivity).
      cbv zeta.
      set (c := WRITE_BUFFER_SIZE - buffer_offset w).
      assert (Hn' : size_sub n c = n - c)
        by (apply size_sub_exact; unfold c; lia).
      rewrite Hn'.
      assert (Hlen : length (memcpy (write_buffer w) (buffer_offset w) ptr c)
                     = length (write_buffer w))
        by (apply memcpy_length; unfold c; lia).
      intros Hrun. revert Hrun. apply IH.
      * destruct (_ =? _); exact Hfh.
      * destruct (_ =? _); cbn [buffer_offset set_buffer_offset]; lia.
      * unfold buffer_allocated.
        destruct (_ =? _);
          cbn [write_buffer set_buffer_offset set_total_bytes
               set_storage_error set_write_buffer record];
          rewrite Hlen; exact Hbuf.
      * rewrite length_skipn. unfold c. lia.
      * lia.
Qed.

Lemma on_data_allocated (evt : esp_http_client_event_t) (w w' : machine) :
  wf_event evt -> session_open w -> buffer_allocated w ->
  on_data env evt w = Some (tt, w') ->
  buffer_allocated w'.
Proof.
  intros [Hdata Hrange] [Hfh Hoff] Hbuf.
  assert (Hskip : Some (tt, w) = Some (tt, w') -> buffer_allocated w')
    by (intros H; injection H as <-; exact Hbuf).
  destruct (data evt) as [bytes|] eqn:Hd.
  2:{ unfold on_data, bind, get. rewrite Hd. exact Hskip. }
  destruct (Z.ltb_spec 0 (data_len evt)) as [Hpos|Hzero].
  2:{ unfold on_data, bind, get. rewrite Hd.
      replace (0 <? data_len evt) with false by (symmetry; apply Z.ltb_ge; lia).
      exact Hskip. }
  destruct (storage_error w) eqn:Herr0.
  { unfold on_data, bind, get. rewrite Hd, Herr0. cbn [negb].
    rewrite andb_false_r. exact Hskip. }
  rewrite (on_data_accepts env evt bytes w Hd Hpos Hfh Herr0). cbv zeta.
  assert (Hn : to_size_t (data_len evt) = data_len evt)
    by (unfold to_size_t, SIZE_MODULUS; apply Z.mod_small; lia).
  rewrite Hn.
  destruct (_ && _).
  - intros H. injection H as <-. exact Hbuf.
  - apply buffer_chunk_allocated;
      cbn [trace file_handle buffer_offset storage_error write_buffer record];
      auto; try (unfold SIZE_MODULUS; lia).
Qed.

Lemma flush_keeps_buffer (w w' : machine) :
  flush_write_buffer env w = Some (tt, w') ->
  write_buffer w' = write_buffer w.
Proof.
  destruct (non_null (file_handle w) && (0 <? buffer_offset w)
            && negb (storage_error w)) eqn:G.
  - rewrite flush_write_buffer_write by exact G. cbv zeta.
    intros H. injection H as <-. destruct (_ =? _); reflexivity.
  - rewrite flush_write_buffer_skip by exact G.
    intros H. injection H as <-. reflexivity.
Qed.

Lemma handler_allocated (evt : esp_http_client_event_t) (w w' : machine)
      (r : esp_err_t) :
  wf_event evt -> session_open w -> buffer_allocated w ->
  _http_event_handler env evt w = Some (r, w') ->
  buffer_allocated w'.
Proof.
  intros Hwf Hopen Hbuf.
  unfold _http_event_handler, bind, ret.
  destruct (event_id evt); cbv beta iota;
    try (intros H; injection H as _ <-; exact Hbuf).
  - destruct (on_data env evt w) as [[[] w1]|] eqn:Hd; [|discriminate].
    intros H. injection H as _ <-.
    exact (on_data_allocated evt w w1 Hwf Hopen Hbuf Hd).
  - destruct (flush_write_buffer env w) as [[[] w1]|] eqn:Hf; [|discriminate].
    intros H. injection H as _ <-.
    unfold buffer_allocated. rewrite (flush_keeps_buffer _ _ Hf). exact Hbuf.
Qed.

Lemma dispatch_allocated (evts : list esp_http_client_event_t) :
  forall w w' : machine,
    Forall wf_event evts -> session_open w -> buffer_allocated w ->
    dispatch env evts w = Some (tt, w') ->
    session_open w' /\ buffer_allocated w'.
Proof.
  induction evts as [|evt rest IH]; intros w w' Hwf Hopen Hbuf.
  - simpl. unfold ret. intros H. injection H as <-. auto.
  - inversion Hwf as [|? ? Hevt Hrest]; subst.
    destruct (handler_spec env evt w Hopen)
      as (w1 & a1 & Hrun1 & _ & Hopen1 & _).
    simpl dispatch. unfold bind at 1. rewrite Hrun1.
    apply IH; auto.
    exact (handler_allocated evt w w1 ESP_OK Hevt Hopen Hbuf Hrun1).
Qed.

(** X4 (bounds).  The callback stays inside [write_buffer].  For an event whose payload
    is as long as it says, on an open session: the callback returns
    [ESP_OK], the fill level stays below the capacity and the array keeps
    its size, so no copy runs past its end. *)
Theorem callback_stays_in_buffer
        (evt : esp_http_client_event_t) (w : machine) :
  wf_event evt -> session_open w -> buffer_allocated w ->
  exists w',
    _http_event_handler env evt w = Some (ESP_OK, w') /\
    session_open w' /\ buffer_allocated w'.
Proof.
  intros Hwf Hopen Hbuf.
  destruct (handler_spec env evt w Hopen)
    as (w' & added & Hrun & _ & Hopen' & _).
  exists w'. split; [exact Hrun|]. split; [exact Hopen'|].
  exact (handler_allocated evt w w' ESP_OK Hwf Hopen Hbuf Hrun).
Qed.

(** ** Flushing twice *)

(** X3 (flushing twice).  A flush right after a flush does nothing: whatever the first one did,
    it left no byte for the second to write.  (The flush on
    [HTTP_EVENT_ON_FINISH] and the one after [esp_http_client_perform]
    write the tail of the stream once.) *)
Theorem flush_twice_is_flush (w : machine) :
  bind (flush_write_buffer env) (fun _ => flush_write_buffer env) w
  = flush_write_buffer env w.
Proof.
  unfold bind at 1.
  destruct (non_null (file_handle w) && (0 <? buffer_offset w)
            && negb (storage_error w)) eqn:G.
  - rewrite flush_write_buffer_write by exact G. cbv zeta.
    apply flush_write_buffer_skip.
    cbn [buffer_offset set_buffer_offset]. cbn [Z.ltb Z.compare].
    rewrite andb_false_r. reflexivity.
  - rewrite flush_write_buffer_skip by exact G.
    apply flush_write_buffer_skip. exact G.
Qed.

(** ** Writes and the byte counter *)

Lemma accounted_same (w w' : machine) :
  trace w' = trace w -> total_bytes w' = total_bytes w -> accounted w w' [].
Proof.
  intros Ht Hb. unfold accounted. rewrite Ht, Hb. simpl.
  rewrite Z.add_0_r.
  split; [reflexivity|]. split; [constructor|]. split; [constructor|].
  split; [reflexivity | intros H; exact H].
Qed.

Lemma accounted_trans (w w1 w2 : machine) (a1 a2 : list effect) :
  accounted w w1 a1 -> accounted w1 w2 a2 -> accounted w w2 (a2 ++ a1).
Proof.
  intros (Ht1 & Hs1 & Hw1 & Hb1 & Hr1) (Ht2 & Hs2 & Hw2 & Hb2 & Hr2).
  unfold accounted.
  split; [rewrite Ht2, Ht1, app_assoc; reflexivity|].
  split; [apply Forall_app; auto|].
  split; [apply Forall_app; auto|].
  split; [|auto].
  rewrite Hb2, flush_requests_app, sum_Z_app.
  unfold to_size_t in *.
  rewrite Z.add_mod, Hb1, <- Z.add_mod by (unfold SIZE_MODULUS; lia).
  f_equal. lia.
Qed.

Lemma flush_account (w w' : machine) :
  flush_write_buffer env w = Some (tt, w') ->
  storage_error w' = false ->
  storage_error w = false /\ exists added, accounted w w' added.
Proof.
  destruct (non_null (file_handle w) && (0 <? buffer_offset w)
            && negb (storage_error w)) eqn:G.
  - rewrite flush_write_buffer_write by exact G. cbv zeta.
    apply andb_true_iff in G as [G Herr]. apply negb_true_iff in Herr.
    apply andb_true_iff in G as [_ Hpos]. apply Z.ltb_lt in Hpos.
    set (buf := firstn _ _). set (written := env_fwrite _ _ _ _).
    intros H. injection H as <-.
    destruct (Z.eqb_spec written (buffer_offset w)) as [E|E];
      cbn [storage_error set_buffer_offset set_total_bytes set_storage_error
           record]; [|discriminate].
    intros _. split; [exact Herr|].
    exists [E_fwrite buf (buffer_offset w) written].
    unfold accounted.
    cbn [trace total_bytes set_buffer_offset set_total_bytes record app
         flush_requests sum_Z fold_right].
    split; [reflexivity|].
    split; [constructor; [exact I | constructor]|].
    split.
    { constructor; [|constructor]. split; [exact E|].
      unfold buf. rewrite length_firstn. lia. }
    split.
    { unfold size_add, to_size_t. rewrite Z.mod_mod by (unfold SIZE_MODULUS; lia).
      f_equal. lia. }
    intros _. apply to_size_t_range.
  - rewrite flush_write_buffer_skip by exact G.
    intros H Herr. injection H as <-. split; [exact Herr|].
    exists []. apply accounted_same; reflexivity.
Qed.

Lemma buffer_chunk_account (fuel : nat) :
  forall (n : Z) (ptr : list byte) (w w' : machine),
    buffer_chunk env fuel n ptr w = Some (tt, w') ->
    storage_error w' = false ->
    storage_error w = false /\ exists added, accounted w w' added.
Proof.
  induction fuel as [|fuel IH]; intros n ptr w w';
    destruct ((0 <? n) && negb (storage_error w)) eqn:G;
    try (rewrite buffer_chunk_done by exact G;
         intros H Herr; injection H as <-; split; [exact Herr|];
         exists []; apply accounted_same; reflexivity).
  - simpl. unfold bind, get. rewrite G. discriminate.
  - rewrite buffer_chunk_step by exact G. cbv zeta.
    apply andb_true_iff in G as [_ Herr0]. apply negb_true_iff in Herr0.
    set (w1 := set_buffer_offset _ _).
    assert (H1 : accounted w w1 []) by (apply accounted_same; reflexivity).
    destruct (buffer_offset w1 =? WRITE_BUFFER_SIZE).
    + destruct (flush_write_buffer env w1) as [[[] w2]|] eqn:Hf; [|discriminate].
      intros Hrun Herr. split; [exact Herr0|].
      destruct (IH _ _ _ _ Hrun Herr) as (Herr2 & a3 & H3).
      destruct (flush_account _ _ Hf Herr2) as (_ & a2 & H2).
      exists (a3 ++ a2 ++ []).
      exact (accounted_trans _ _ _ _ _ (accounted_trans _ _ _ _ _ H1 H2) H3).
    + intros Hrun Herr. split; [exact Herr0|].
      destruct (IH _ _ _ _ Hrun Herr) as (_ & a3 & H3).
      exists (a3 ++ []). exact (accounted_trans _ _ _ _ _ H1 H3).
Qed.

Lemma on_data_account (evt : esp_http_client_event_t) (w w' : machine) :
  on_data env evt w = Some (tt, w') ->
  storage_error w' = false ->
  storage_error w = false /\ exists added, accounted w w' added.
Proof.
  assert (Hskip : Some (tt, w) = Some (tt, w') -> storage_error w' = false ->
          storage_error w = false /\ exists added, accounted w w' added).
  { intros H Herr. injection H as <-. split; [exact Herr|].
    exists []. apply accounted_same; reflexivity. }
  unfold on_data, bind, get.
  destruct (data evt) as [bytes|]; [|exact Hskip].
  destruct ((0 <? data_len evt) && non_null (file_handle w)
            && negb (storage_error w)) eqn:G; [|exact Hskip].
  apply andb_true_iff in G as [_ Herr0]. apply negb_true_iff in Herr0.
  unfold esp_spiffs_info. cbv zeta.
  set (q := E_spiffs_info _ _ _).
  assert (Hq : accounted w (record q w) [q]).
  { unfold accounted. cbn [trace total_bytes record app flush_requests sum_Z
                           fold_right].
    rewrite Z.add_0_r.
    split; [reflexivity|].
    split; [constructor; [exact I | constructor]|].
    split; [constructor; [exact I | constructor]|].
    split; [reflexivity | intros H; exact H]. }
  destruct (_ && _).
  - unfold modify. intros H Herr. injection H as <-. discriminate Herr.
  - intros Hrun Herr. split; [exact Herr0|].
    destruct (buffer_chunk_account _ _ _ _ _ Hrun Herr) as (_ & a & Ha).
    exists (a ++ [q]). exact (accounted_trans _ _ _ _ _ Hq Ha).
Qed.

Lemma handler_account (evt : esp_http_client_event_t) (w w' : machine)
      (r : esp_err_t) :
  _http_event_handler env evt w = Some (r, w') ->
  storage_error w' = false ->
  storage_error w = false /\ exists added, accounted w w' added.
Proof.
  unfold _http_event_handler, bind, ret.
  destruct (event_id evt); cbv beta iota;
    try (intros H Herr; injection H as _ <-; split; [exact Herr|];
         exists []; apply accounted_same; reflexivity).
  - destruct (on_data env evt w) as [[[] w1]|] eqn:Hd; [|discriminate].
    intros H. injection H as _ <-. exact (on_data_account _ _ _ Hd).
  - destruct (flush_write_buffer env w) as [[[] w1]|] eqn:Hf; [|discriminate].
    intros H. injection H as _ <-. exact (flush_account _ _ Hf).
Qed.

Lemma dispatch_account (evts : list esp_http_client_event_t) :
  forall w w' : machine,
    dispatch env evts w = Some (tt, w') ->
    storage_error w' = false ->
    storage_error w = false /\ exists added, accounted w w' added.
Proof.
  induction evts as [|evt rest IH]; intros w w'.
  - simpl. unfold ret. intros H Herr. injection H as <-. split; [exact Herr|].
    exists []. apply accounted_same; reflexivity.
  - simpl. unfold bind.
    destruct (_http_event_handler env evt w) as [[r w1]|] eqn:Hh; [|discriminate].
    intros Hrun Herr.
    destruct (IH _ _ Hrun Herr) as (Herr1 & a2 & H2).
    destruct (handler_account _ _ _ _ Hh Herr1) as (Herr0 & a1 & H1).
    split; [exact Herr0|]. exists (a2 ++ a1).
    exact (accounted_trans _ _ _ _ _ H1 H2).
Qed.

(** The transfer of an attempt that ends with no error latched. *)
Lemma transfer_account (w w' : machine) (status : esp_err_t) :
  transfer env w = Some (status, w') ->
  storage_error w' = false ->
  let script := env_http_client_perform env (trace w) in
  status = snd script /\
  exists added,
    trace w' = E_fclose :: added
               ++ E_http_client_perform (fst script) (snd script) :: trace w /\
    Forall sink_effect added /\ Forall whole_write added /\
    to_size_t (total_bytes w')
    = to_size_t (total_bytes w + sum_Z (flush_requests added)) /\
    (0 <= total_bytes w < SIZE_MODULUS -> 0 <= total_bytes w' < SIZE_MODULUS).
Proof.
  rewrite transfer_unfold. cbv zeta.
  set (script := env_http_client_perform env (trace w)).
  set (wp := record _ w).
  destruct (dispatch env _ wp) as [[[] w1]|] eqn:Hd; [|discriminate].
  destruct (flush_write_buffer env w1) as [[[] w2]|] eqn:Hf; [|discriminate].
  intros H Herr. injection H as <- <-. split; [reflexivity|].
  cbn [storage_error set_file_handle record] in Herr.
  destruct (flush_account _ _ Hf Herr) as (Herr1 & a2 & H2).
  destruct (dispatch_account _ _ _ Hd Herr1) as (_ & a1 & H1).
  destruct (accounted_trans _ _ _ _ _ H1 H2) as (Ht & Hs & Hw & Hb & Hr).
  exists (a2 ++ a1).
  cbn [trace total_bytes set_file_handle record].
  split; [rewrite Ht; unfold wp; cbn [trace record];
          rewrite <- app_assoc; reflexivity|].
  split; [exact Hs|]. split; [exact Hw|]. split; [exact Hb | exact Hr].
Qed.

(** ** What a successful download leaves *)

Lemma flushed_bytes_app (a b : list effect) :
  flushed_bytes (a ++ b) = flushed_bytes b ++ flushed_bytes a.
Proof.
  induction a as [|e a IH]; simpl; [now rewrite app_nil_r|].
  destruct e; try exact IH. rewrite IH, app_assoc. reflexivity.
Qed.

Lemma taken_by_fwrite_sink (a t : list effect) :
  Forall sink_effect a -> Forall whole_write a ->
  taken_by_fwrite (a ++ t) = taken_by_fwrite t ++ flushed_bytes a.
Proof.
  induction a as [|e a IH]; intros Hs Hw; simpl; [now rewrite app_nil_r|].
  inversion Hs as [|? ? He Hs']; inversion Hw as [|? ? Hwe Hw']; subst.
  destruct e; simpl in He; try contradiction.
  - apply IH; assumption.
  - destruct Hwe as [-> Hlen].
    rewrite IH by assumption. rewrite firstn_all2 by exact Hlen.
    rewrite app_assoc. reflexivity.
Qed.

Lemma last_script_sink (a t : list effect) :
  Forall sink_effect a -> last_script (a ++ t) = last_script t.
Proof.
  induction 1 as [|e a He _ IH]; [reflexivity|].
  destruct e; simpl in He; try contradiction; exact IH.
Qed.

(** An attempt returns [ESP_OK] only along the success branch. *)
Lemma attempt_success (a : Z) (w w' : machine) :
  attempt_body env a w = Some (Some ESP_OK, w') ->
  exists w1 w2,
    open_attempt env w = Some (None, w1) /\
    transfer env w1 = Some (ESP_OK, w2) /\
    storage_error w2 = false /\
    w' = record E_http_client_cleanup
           (record (E_timer_get_time (env_timer_get_time env (trace w2))) w2).
Proof.
  rewrite attempt_body_unfold.
  destruct (open_attempt env w) as [[[r|] w1]|] eqn:Ho; [| |discriminate].
  - intros H. injection H as -> <-. exfalso.
    rewrite open_attempt_cases in Ho. cbv zeta in Ho.
    destruct (env_http_client_init env _);
      [destruct (env_fopen env _)|]; discriminate.
  - destruct (transfer env w1) as [[st w2]|] eqn:Ht; [|discriminate].
    rewrite conclude_cases.
    destruct ((st =? ESP_OK) && negb (storage_error w2)) eqn:G.
    + apply andb_true_iff in G as [Hst Herr].
      apply Z.eqb_eq in Hst. apply negb_true_iff in Herr. subst st.
      intros H. injection H as <-. exists w1, w2. auto.
    + destruct (storage_error w2); discriminate.
Qed.

Lemma attempt_body_allocated (a : Z) (w w' : machine) (r : option esp_err_t) :
  (forall t, Forall wf_event (fst (env_http_client_perform env t))) ->
  buffer_allocated w ->
  attempt_body env a w = Some (r, w') ->
  buffer_allocated w'.
Proof.
  intros Hwf Hbuf. rewrite attempt_body_unfold.
  destruct (open_attempt env w) as [[[e|] w1]|] eqn:Ho; [| |discriminate].
  - intros H. injection H as _ <-.
    rewrite open_attempt_cases in Ho. cbv zeta in Ho.
    destruct (env_http_client_init env _);
      [destruct (env_fopen env _)|]; try discriminate;
      injection Ho as _ <-; exact Hbuf.
  - pose proof (open_attempt_session env _ _ Ho) as Hopen.
    assert (Hbuf1 : buffer_allocated w1).
    { rewrite open_attempt_cases in Ho. cbv zeta in Ho.
      destruct (env_http_client_init env _); [|discriminate].
      destruct (env_fopen env _); [|discriminate].
      injection Ho as <-. exact Hbuf. }
    rewrite transfer_unfold. cbv zeta.
    set (script := env_http_client_perform env (trace w1)).
    set (wp := record _ w1).
    destruct (dispatch env (fst script) wp) as [[[] w2]|] eqn:Hd; [|discriminate].
    destruct (flush_write_buffer env w2) as [[[] w3]|] eqn:Hf; [|discriminate].
    destruct (dispatch_allocated (fst script) wp w2 (Hwf _) Hopen Hbuf1 Hd)
      as [_ Hbuf2].
    assert (Hbuf3 : buffer_allocated w3)
      by (unfold buffer_allocated; rewrite (flush_keeps_buffer _ _ Hf);
          exact Hbuf2).
    rewrite conclude_cases.
    destruct (_ && _); [|destruct (storage_error _)];
      intros H; injection H as _ <-; exact Hbuf3.
Qed.

Lemma for_attempt_success (fuel : nat) :
  forall (a : Z) (w w' : machine),
    (forall t, Forall wf_event (fst (env_http_client_perform env t))) ->
    buffer_allocated w ->
    for_attempt env fuel a w = Some (ESP_OK, w') ->
    taken_by_fwrite (trace w') = received_bytes (last_script (trace w')) /\
    total_bytes w' = to_size_t (received (last_script (trace w'))) /\
    storage_error w' = false /\ file_handle w' = None.
Proof.
  induction fuel as [|fuel IH]; intros a w w' Hwf Hbuf;
    destruct (Z_lt_le_dec MAX_RETRIES a) as [Hgt|Hle];
    try (rewrite for_attempt_exit by exact Hgt; discriminate).
  - simpl. apply Z.leb_le in Hle. rewrite Hle. discriminate.
  - rewrite for_attempt_step by exact Hle.
    destruct (attempt_body env a w) as [[[v|] w1]|] eqn:Hb; [| |discriminate].
    + intros H. injection H as -> ->.
      destruct (attempt_success _ _ _ Hb) as (w1 & w2 & Ho & Ht & Herr & ->).
      destruct (open_attempt_trace env _ _ Ho) as (now & Htr1).
      destruct (open_attempt_fresh env _ _ Ho) as (_ & Htot1 & _ & Hoff1).
      pose proof (open_attempt_session env _ _ Ho) as Hopen.
      destruct (transfer_account _ _ _ Ht Herr)
        as (_ & added & Htr2 & Hs & Hw & Htot & Hrange).
      pose proof (stream_conservation env w w1 w2 ESP_OK Hbuf Ho Ht (Hwf _) Herr)
        as Hstream.
      destruct (transfer_spec env w1 Hopen)
        as (w2' & added' & Ht' & Htr' & Hfh & _ & Hsum).
      rewrite Ht in Ht'. injection Ht' as _ <-.
      destruct (Hsum Herr) as [Hsum' _].
      set (script := env_http_client_perform env (trace w1)) in *.
      set (p := E_http_client_perform (fst script) (snd script)) in *.
      assert (Hadded : added' = E_fclose :: added ++ [p]).
      { apply (app_inv_tail (trace w1)). rewrite <- Htr', Htr2.
        simpl. rewrite <- app_assoc. reflexivity. }
      assert (Hreq : sum_Z (flush_requests added) = received (fst script)).
      { rewrite Hadded in Hsum'. simpl flush_requests in Hsum'.
        rewrite flush_requests_app in Hsum'. simpl (flush_requests [p]) in Hsum'.
        rewrite app_nil_r, Hoff1,
          (accepted_wf (fst script) (Hwf (trace w1))) in Hsum'.
        exact Hsum'. }
      assert (Hbytes : flushed_bytes added = received_bytes (fst script)).
      { rewrite Htr2 in Hstream. simpl flushed_bytes in Hstream.
        rewrite flushed_bytes_app in Hstream. simpl flushed_bytes in Hstream.
        apply app_inv_head in Hstream. exact Hstream. }
      subst p.
      cbn [trace total_bytes storage_error file_handle record].
      rewrite Htr2. cbn [taken_by_fwrite last_script].
      rewrite taken_by_fwrite_sink, last_script_sink by assumption.
      cbn [taken_by_fwrite last_script]. rewrite Htr1. cbn [taken_by_fwrite app].
      split; [exact Hbytes|]. split; [|split; [exact Herr | exact Hfh]].
      rewrite Htot1, Hreq, Z.add_0_l in Htot. rewrite <- Htot.
      unfold to_size_t. symmetry. apply Z.mod_small. apply Hrange.
      rewrite Htot1. unfold SIZE_MODULUS. lia.
    + apply IH; [exact Hwf|].
      exact (attempt_body_allocated _ _ _ _ Hwf Hbuf Hb).
Qed.

(** X5 (success).  What [ESP_OK] stands for.  With a transport that
    delivers well-formed events, in a download that returns [ESP_OK] the
    bytes [fwrite] reported as taken on the stream of the last [fopen] are
    the payload of the last transfer, byte for byte and nothing else,
    [total_bytes] is the length of that payload (as a [size_t]), no storage
    error is latched and the stream has been handed to [fclose].  Whether
    the bytes are in the file is not said: the code does not check
    [fclose]. *)
Theorem download_success_accounting (w w' : machine) :
  (forall t, Forall wf_event (fst (env_http_client_perform env t))) ->
  buffer_allocated w ->
  https_download_file env w = Some (ESP_OK, w') ->
  taken_by_fwrite (trace w') = received_bytes (last_script (trace w')) /\
  total_bytes w' = to_size_t (received (last_script (trace w'))) /\
  storage_error w' = false /\ file_handle w' = None.
Proof.
  intros Hwf Hbuf Hrun.
  exact (for_attempt_success _ _ _ _ Hwf Hbuf Hrun).
Qed.

(** ** Every run of the retry loop *)

Lemma count_app (p : effect -> bool) (a b : list effect) :
  count p (a ++ b) = (count p a + count p b)%nat.
Proof. unfold count. now rewrite filter_app, length_app. Qed.

Lemma count_sink (p : effect -> bool) (a : list effect) :
  (forall e, sink_effect e -> p e = false) ->
  Forall sink_effect a -> count p a = O.
Proof.
  intros Hp. induction 1 as [|e a He _ IH]; [reflexivity|].
  unfold count in *. simpl. now rewrite (Hp e He).
Qed.

Lemma slept_app (a b : list effect) : slept (a ++ b) = slept a + slept b.
Proof.
  induction a as [|e a IH]; [reflexivity|].
  destruct e; simpl; rewrite ?IH; lia.
Qed.

Lemma slept_sink (a : list effect) : Forall sink_effect a -> slept a = 0.
Proof.
  induction 1 as [|e a He _ IH]; [reflexivity|].
  destruct e; simpl in He; try contradiction; exact IH.
Qed.

Lemma balanced_app (a b : list effect) :
  balanced a -> balanced b -> balanced (a ++ b).
Proof.
  intros [Ha1 Ha2] [Hb1 Hb2]. unfold balanced.
  rewrite !count_app. lia.
Qed.

Lemma balanced_around (pre mid post : list effect) :
  Forall sink_effect mid ->
  balanced (pre ++ post) -> balanced (pre ++ mid ++ post).
Proof.
  intros Hs [H1 H2]. unfold balanced in *.
  rewrite !count_app in *.
  rewrite !(count_sink _ mid) by (auto; intros e; destruct e; simpl; tauto).
  lia.
Qed.

(** One pass through the loop body. *)
Lemma attempt_body_summary (a : Z) (w : machine) :
  exists r w' added,
    attempt_body env a w = Some (r, w') /\
    trace w' = added ++ trace w /\
    balanced added /\
    (r = Some ESP_OK \/ r = Some ESP_FAIL \/ r = None) /\
    slept added = match r with None => backoff_ms a | Some _ => 0 end /\
    (file_handle w = None -> file_handle w' = None).
Proof.
  rewrite attempt_body_unfold.
  destruct (open_attempt env w) as [[[e|] w1]|] eqn:Ho.
  - rewrite open_attempt_cases in Ho. cbv zeta in Ho.
    destruct (env_http_client_init env _);
      [destruct (env_fopen env _)|]; try discriminate;
      injection Ho as <- <-.
    + eexists (Some ESP_FAIL), _,
        [E_http_client_cleanup; E_fopen false; E_unlink;
         E_http_client_init true].
      split; [reflexivity|]. split; [reflexivity|].
      split; [split; reflexivity|]. split; [auto|]. split; reflexivity.
    + eexists (Some ESP_FAIL), _, [E_http_client_init false].
      split; [reflexivity|]. split; [reflexivity|].
      split; [split; reflexivity|]. split; [auto|].
      split; [reflexivity | intros H; exact H].
  - destruct (open_attempt_trace env _ _ Ho) as (now & Htr1).
    destruct (transfer_spec env w1 (open_attempt_session env _ _ Ho))
      as (w2 & added & Ht & _ & Hfh & _).
    destruct (transfer_effects env _ _ _ Ht) as (_ & a2 & Htr2 & Hs).
    rewrite Ht, conclude_cases.
    set (p := E_http_client_perform _ _) in Htr2.
    set (opening := [E_timer_get_time now; E_fopen true; E_unlink;
                     E_http_client_init true]).
    destruct (_ && _); [|destruct (storage_error w2)].
    + eexists (Some ESP_OK), _,
        (([E_http_client_cleanup;
           E_timer_get_time (env_timer_get_time env (trace w2))]
          ++ [E_fclose]) ++ a2 ++ p :: opening).
      split; [reflexivity|].
      split; [cbn [trace record]; rewrite Htr2, Htr1; unfold opening;
              simpl; rewrite <- app_assoc; reflexivity|].
      split; [apply balanced_around; [exact Hs | split; reflexivity]|].
      split; [auto|].
      split; [|intros _; exact Hfh].
      rewrite !slept_app, (slept_sink a2 Hs). reflexivity.
    + eexists (Some ESP_FAIL), _,
        (([E_http_client_cleanup] ++ [E_fclose]) ++ a2 ++ p :: opening).
      split; [reflexivity|].
      split; [cbn [trace record]; rewrite Htr2, Htr1; unfold opening;
              simpl; rewrite <- app_assoc; reflexivity|].
      split; [apply balanced_around; [exact Hs | split; reflexivity]|].
      split; [auto|].
      split; [|intros _; exact Hfh].
      rewrite !slept_app, (slept_sink a2 Hs). reflexivity.
    + eexists None, _,
        (([E_http_client_cleanup; E_vTaskDelay_ms (backoff_ms a)]
          ++ [E_fclose]) ++ a2 ++ p :: opening).
      split; [reflexivity|].
      split; [cbn [trace record]; rewrite Htr2, Htr1; unfold opening;
              simpl; rewrite <- app_assoc; reflexivity|].
      split; [apply balanced_around; [exact Hs | split; reflexivity]|].
      split; [auto|].
      split; [|intros _; exact Hfh].
      rewrite !slept_app, (slept_sink a2 Hs). simpl. lia.
  - rewrite open_attempt_cases in Ho. cbv zeta in Ho.
    destruct (env_http_client_init env _);
      [destruct (env_fopen env _)|]; discriminate.
Qed.

Lemma backoff_budget_step (a : Z) :
  1 <= a <= MAX_RETRIES ->
  0 <= backoff_ms a /\ 0 <= backoff_budget (a + 1) /\
  backoff_ms a + backoff_budget (a + 1) = backoff_budget a.
Proof.
  unfold MAX_RETRIES. intros H.
  assert (a = 1 \/ a = 2 \/ a = 3) as [-> | [-> | ->]] by lia;
    (split; [|split]); vm_compute; congruence.
Qed.

Lemma for_attempt_summary (fuel : nat) :
  forall (a : Z) (w : machine),
    1 <= a <= MAX_RETRIES + 1 ->
    (Z.to_nat (MAX_RETRIES + 1 - a) <= fuel)%nat ->
    exists r w' added,
      for_attempt env fuel a w = Some (r, w') /\
      trace w' = added ++ trace w /\
      balanced added /\
      (r = ESP_OK \/ r = ESP_FAIL) /\
      0 <= slept added <= backoff_budget a /\
      (file_handle w = None -> file_handle w' = None).
Proof.
  assert (Hexit : forall fuel a w,
             a = MAX_RETRIES + 1 ->
             exists r w' added,
               for_attempt env fuel a w = Some (r, w') /\
               trace w' = added ++ trace w /\ balanced added /\
               (r = ESP_OK \/ r = ESP_FAIL) /\
               0 <= slept added <= backoff_budget a /\
               (file_handle w = None -> file_handle w' = None)).
  { intros f a w ->. exists ESP_FAIL, w, [].
    rewrite for_attempt_exit by lia.
    split; [reflexivity|]. split; [reflexivity|].
    split; [split; reflexivity|]. split; [auto|].
    replace (backoff_budget (MAX_RETRIES + 1)) with 0 by reflexivity.
    split; [simpl; lia | auto]. }
  induction fuel as [|fuel IH]; intros a w Ha Hfuel.
  - apply Hexit. lia.
  - destruct (Z.eq_dec a (MAX_RETRIES + 1)) as [E|E]; [apply Hexit; exact E|].
    assert (Ha' : 1 <= a <= MAX_RETRIES) by lia.
    destruct (backoff_budget_step a Ha') as (Hms & Hpos & Hstep).
    rewrite for_attempt_step by lia.
    destruct (attempt_body_summary a w)
      as (r & w1 & a1 & Hb & Htr1 & Hbal1 & Hr & Hsl1 & Hfh1).
    rewrite Hb.
    destruct Hr as [-> | [-> | ->]].
    + exists ESP_OK, w1, a1.
      split; [reflexivity|]. split; [exact Htr1|]. split; [exact Hbal1|].
      split; [auto|]. split; [lia | exact Hfh1].
    + exists ESP_FAIL, w1, a1.
      split; [reflexivity|]. split; [exact Htr1|]. split; [exact Hbal1|].
      split; [auto|]. split; [lia | exact Hfh1].
    + rewrite next_attempt by lia.
      destruct (IH (a + 1) w1) as (r & w' & a2 & Hrun & Htr2 & Hbal2 & Hr & Hsl2 & Hfh2);
        [lia | lia |].
      exists r, w', (a2 ++ a1).
      split; [exact Hrun|].
      split; [rewrite Htr2, Htr1, app_assoc; reflexivity|].
      split; [apply balanced_app; assumption|].
      split; [exact Hr|].
      split; [rewrite slept_app; lia | auto].
Qed.

(** X7 (release).  Nothing leaks.  In every download each client handed out by
    [esp_http_client_init] is released by one [esp_http_client_cleanup] and
    each stream opened by [fopen] is closed by one [fclose], on every way
    out of the loop; a download that starts without an open stream ends
    without one. *)
Theorem resources_released (w : machine) :
  exists r w' added,
    https_download_file env w = Some (r, w') /\
    trace w' = added ++ trace w /\
    count client_acquired added = count client_released added /\
    count sink_opened added = count sink_closed added /\
    (file_handle w = None -> file_handle w' = None).
Proof.
  destruct (for_attempt_summary (Z.to_nat MAX_RETRIES) 1 w)
    as (r & w' & added & Hrun & Htr & [Hc Hs] & _ & _ & Hfh);
    [unfold MAX_RETRIES; lia | unfold MAX_RETRIES; lia |].
  exists r, w', added. auto.
Qed.

(** X8 (sleep bound).  The loop never sleeps more than the sum of its
    backoffs: at most
    [BACKOFF_BASE_MS * (2 ^ MAX_RETRIES - 1)], that is 7000 ms, in one
    download. *)
Theorem total_backoff_bounded (w : machine) :
  exists r w' added,
    https_download_file env w = Some (r, w') /\
    trace w' = added ++ trace w /\
    0 <= slept added <= BACKOFF_BASE_MS * (2 ^ MAX_RETRIES - 1).
Proof.
  destruct (for_attempt_summary (Z.to_nat MAX_RETRIES) 1 w)
    as (r & w' & added & Hrun & Htr & _ & _ & Hsl & _);
    [unfold MAX_RETRIES; lia | unfold MAX_RETRIES; lia |].
  exists r, w', added. auto.
Qed.

(** X9 (result code).  The caller sees [ESP_OK] or [ESP_FAIL] and nothing
    else: the status of
    the transport is not passed on. *)
Theorem download_result_code (w : machine) :
  exists r w',
    https_download_file env w = Some (r, w') /\
    (r = ESP_OK \/ r = ESP_FAIL).
Proof.
  destruct (for_attempt_summary (Z.to_nat MAX_RETRIES) 1 w)
    as (r & w' & added & Hrun & _ & _ & Hr & _);
    [unfold MAX_RETRIES; lia | unfold MAX_RETRIES; lia |].
  exists r, w'. auto.
Qed.

(** X6 (no client).  No client, no download.  When [esp_http_client_init] returns NULL the
    download returns [ESP_FAIL] at once and that call is the only one made:
    the destination is not unlinked, nothing is released, no retry is made
    and the statics keep their values. *)
Theorem client_init_failure_fatal (fuel : nat) (a : Z) (w : machine) :
  a <= MAX_RETRIES ->
  env_http_client_init env (trace w) = false ->
  for_attempt env (S fuel) a w
  = Some (ESP_FAIL, record (E_http_client_init false) w).
Proof.
  intros Ha Hinit. rewrite for_attempt_step by exact Ha.
  rewrite attempt_body_unfold, open_attempt_cases, Hinit. reflexivity.
Qed.

(** X11 (wrap-around).  An inconsistent free-space report lets the chunk
    through.  When
    [esp_spiffs_info] succeeds but reports more bytes used than the total,
    [total - used] wraps around as a [size_t], and a chunk no longer than
    the wrapped difference is sent to the copy loop. *)
Theorem inconsistent_free_space_accepts
        (evt : esp_http_client_event_t) (bytes : list byte) (w : machine) :
  data evt = Some bytes -> 0 < data_len evt ->
  non_null (file_handle w) = true -> storage_error w = false ->
  let info := env_spiffs_info env (trace w) in
  let total := fst (snd info) in
  let used := snd (snd info) in
  let n := to_size_t (data_len evt) in
  fst info = ESP_OK ->
  0 <= total < used -> used < SIZE_MODULUS ->
  n <= SIZE_MODULUS - (used - total) ->
  on_data env evt w
  = buffer_chunk env (Z.to_nat n) n bytes
      (record (E_spiffs_info (fst info) total used) w).
Proof.
  intros Hd Hlen Hfh Herr info total used n Hok Htot Hused Hn.
  rewrite (on_data_accepts env evt bytes w Hd Hlen Hfh Herr). cbv zeta.
  fold info. fold total. fold used. fold n.
  replace (size_sub total used <? n) with false; [now rewrite andb_false_r|].
  symmetry. apply Z.ltb_ge.
  unfold size_sub, to_size_t.
  replace (total - used) with (SIZE_MODULUS - (used - total) + (-1) * SIZE_MODULUS)
    by lia.
  rewrite Z.mod_add by (unfold SIZE_MODULUS; lia).
  rewrite Z.mod_small by lia. exact Hn.
Qed.

End Further.

Ltac run_scenario :=
  match goal with
  | |- ?m ?w = Some (?r, _) => apply (after_run m w r); vm_compute; reflexivity
  end.

(** ** The scenarios of the design document *)

(** Scenario A: one flush of 32768 bytes in mid-stream, one of 7232 at the
    end, 40000 bytes written. *)
Example scenario_A :
  let run := https_download_file env_two_chunks in
  option_map fst (run boot) = Some ESP_OK /\
  rev (flush_requests (trace (after run boot))) = [32768; 7232] /\
  total_bytes (after run boot) = 40000 /\
  rev (schedule (trace (after run boot))) = [Attempt].
Proof. vm_compute. repeat split. Qed.

(** Scenario B: the chunk is dropped, the flag latched, no retry. *)
Example scenario_B :
  let run := https_download_file env_out_of_space in
  option_map fst (run boot) = Some ESP_FAIL /\
  storage_error (after run boot) = true /\
  flush_requests (trace (after run boot)) = [] /\
  buffer_offset (after run boot) = 0 /\
  rev (schedule (trace (after run boot))) = [Attempt].
Proof. vm_compute. repeat split. Qed.

(** Scenario C: two failures, sleeps of the base and of twice the base,
    then success. *)
Example scenario_C :
  let run := https_download_file env_third_time in
  option_map fst (run boot) = Some ESP_OK /\
  rev (schedule (trace (after run boot)))
  = [Attempt; Sleep 1000; Attempt; Sleep 2000; Attempt] /\
  total_bytes (after run boot) = 40000.
Proof. vm_compute. repeat split. Qed.

(** Scenario D: no transport call, no sleep. *)
Example scenario_D :
  let run := https_download_file env_no_sink in
  option_map fst (run boot) = Some ESP_FAIL /\
  rev (trace (after run boot))
  = [E_http_client_init true; E_unlink; E_fopen false; E_http_client_cleanup].
Proof. vm_compute. repeat split. Qed.

(** ** Instances *)

Lemma buffer_conservation_witness :
  let env := env_two_chunks in
  let w := opened env in
  let w' := after (transfer env) w in
  open_attempt env boot = Some (None, w) /\
  transfer env w = Some (ESP_OK, w') /\
  storage_error w' = false /\
  exists added,
    trace w' = added ++ trace w /\
    sum_Z (flush_requests added) = 40000 /\
    Forall bounded_flush (flush_requests added).
Proof.
  intros env w w'.
  assert (Ho : open_attempt env boot = Some (None, w)) by run_scenario.
  assert (Ht : transfer env w = Some (ESP_OK, w')) by run_scenario.
  assert (He : storage_error w' = false) by (vm_compute; reflexivity).
  assert (Hwf : Forall wf_event (fst (env_http_client_perform env (trace w)))).
  { change (Forall wf_event
              [chunk (Z.to_nat 20000); chunk (Z.to_nat 20000); finish]).
    apply Forall_cons; [apply wf_chunk; vm_compute; reflexivity|].
    apply Forall_cons; [apply wf_chunk; vm_compute; reflexivity|].
    apply Forall_cons; [apply wf_finish | apply Forall_nil]. }
  split; [exact Ho|]. split; [exact Ht|]. split; [exact He|].
  destruct (buffer_conservation env boot w w' ESP_OK Ho Ht Hwf He)
    as [(added & Htr & Hsum & Hall) _].
  exists added. split; [exact Htr|]. split; [|exact Hall].
  rewrite Hsum. vm_compute. reflexivity.
Defined.

Ltac failed_attempt env a w :=
  apply (tf_next env _ a w
           (after (open_attempt env) w)
           (after (transfer env) (after (open_attempt env) w))
           (attempted env a ESP_FAIL w) _ ESP_FAIL);
  [ run_scenario | run_scenario | unfold ESP_FAIL, ESP_OK; discriminate
  | vm_compute; reflexivity | run_scenario | ].

Lemma storage_failure_not_retried_witness :
  let env := env_out_of_space in
  let w1 := opened env in
  let w2 := after (transfer env) w1 in
  (1 <= MAX_RETRIES /\
   open_attempt env boot = Some (None, w1) /\
   transfer env w1 = Some (ESP_OK, w2) /\
   storage_error w2 = true) /\
  for_attempt env 3 1 boot
  = Some (ESP_FAIL, record E_http_client_cleanup w2) /\
  schedule (trace (record E_http_client_cleanup w2))
  = Attempt :: schedule (trace boot).
Proof.
  intros env w1 w2.
  assert (Ha : 1 <= MAX_RETRIES) by (unfold MAX_RETRIES; lia).
  assert (Ho : open_attempt env boot = Some (None, w1)) by run_scenario.
  assert (Ht : transfer env w1 = Some (ESP_OK, w2)) by run_scenario.
  assert (He : storage_error w2 = true) by (vm_compute; reflexivity).
  split; [exact (conj Ha (conj Ho (conj Ht He)))|].
  exact (storage_failure_not_retried env 2 1 boot w1 w2 ESP_OK Ha Ho Ht He).
Defined.

Lemma exponential_backoff_witness :
  let env := env_third_time in
  let w1 := attempted env 1 ESP_FAIL boot in
  let w2 := attempted env 2 ESP_FAIL w1 in
  transport_failures env 2 1 boot w2 /\
  rev (schedule (trace w2))
  = [Attempt; Sleep (BACKOFF_BASE_MS * 2 ^ 0);
     Attempt; Sleep (BACKOFF_BASE_MS * 2 ^ 1)] /\
  https_download_file env boot = for_attempt env 1 3 w2.
Proof.
  intros env w1 w2.
  assert (Hrun : transport_failures env 2 1 boot w2).
  { failed_attempt env 1 boot. failed_attempt env 2 w1. apply tf_none. }
  split; [exact Hrun|].
  exact (exponential_backoff env 2 boot w2 Hrun ltac:(unfold MAX_RETRIES; lia)).
Defined.

Lemma retry_exhaustion_witness :
  let env := env_unreachable in
  let w1 := attempted env 1 ESP_FAIL boot in
  let w2 := attempted env 2 ESP_FAIL w1 in
  let w3 := attempted env 3 ESP_FAIL w2 in
  transport_failures env 3 1 boot w3 /\
  https_download_file env boot = Some (ESP_FAIL, w3) /\
  attempts_made (trace w3) = 3%nat.
Proof.
  intros env w1 w2 w3.
  assert (Hrun : transport_failures env 3 1 boot w3).
  { failed_attempt env 1 boot. failed_attempt env 2 w1.
    failed_attempt env 3 w2. apply tf_none. }
  split; [exact Hrun|].
  exact (retry_exhaustion env boot w3 Hrun).
Defined.

Lemma storage_open_failure_fatal_witness :
  let env := env_no_sink in
  (1 <= MAX_RETRIES /\ env_http_client_init env (trace boot) = true) /\
  exists w',
    for_attempt env 3 1 boot = Some (ESP_FAIL, w') /\
    trace w' = [E_http_client_cleanup; E_fopen false; E_unlink;
                E_http_client_init true] /\
    schedule (trace w') = schedule (trace boot).
Proof.
  intros env.
  assert (Ha : 1 <= MAX_RETRIES) by (unfold MAX_RETRIES; lia).
  assert (Hi : env_http_client_init env (trace boot) = true) by reflexivity.
  split; [split; [exact Ha | exact Hi]|].
  exact (proj2 (storage_open_failure_fatal env 2 1 boot Ha Hi) eq_refl).
Defined.

Lemma flush_discards_on_failure_witness :
  let env := env_worn_flash in
  let w := after (dispatch env [chunk 100]) (opened env) in
  (file_handle w <> None /\ 0 < buffer_offset w /\ storage_error w = false) /\
  exists w',
    flush_write_buffer env w = Some (tt, w') /\
    buffer_offset w' = 0 /\ storage_error w' = true /\
    total_bytes w' = total_bytes w /\
    flush_write_buffer env w' = Some (tt, w').
Proof.
  intros env w.
  assert (Hf : file_handle w <> None) by (vm_compute; discriminate).
  assert (Hp : 0 < buffer_offset w) by (vm_compute; reflexivity).
  assert (He : storage_error w = false) by (vm_compute; reflexivity).
  split; [exact (conj Hf (conj Hp He))|].
  destruct (flush_discards_on_failure env w Hf Hp He)
    as (w' & Hrun & _ & Hoff & Hshort & _).
  destruct Hshort as (Hlatch & Htotal & Hagain); [vm_compute; discriminate|].
  exists w'. exact (conj Hrun (conj Hoff (conj Hlatch (conj Htotal Hagain)))).
Defined.


Lemma storage_error_latching_witness :
  let env := env_out_of_space in
  let evt := chunk (Z.to_nat 2000) in
  let w := opened env in
  session_open w /\
  exists w',
    _http_event_handler env evt w = Some (ESP_OK, w') /\
    queries (trace w') = S (queries (trace w)) /\
    storage_error w' = true /\
    buffer_offset w' = buffer_offset w /\
    total_bytes w' = total_bytes w /\
    forall e, _http_event_handler env e w' = Some (ESP_OK, w').
Proof.
  intros env evt w.
  assert (Hs : session_open w)
    by (split; [vm_compute; reflexivity
               | vm_compute; split; [discriminate | reflexivity]]).
  split; [exact Hs|].
  destruct (storage_error_latching env w Hs) as [_ Hdata].
  destruct (Hdata ltac:(vm_compute; reflexivity) evt
                  (repeat x2a (Z.to_nat 2000)) eq_refl eq_refl
                  ltac:(vm_compute; reflexivity))
    as (w' & later & Hrun & _ & Hq & Hlow).
  exists w'. split; [exact Hrun|]. split; [exact Hq|].
  rewrite Hlow by (vm_compute; reflexivity).
  split; [reflexivity|]. split; [reflexivity|]. split; [reflexivity|].
  intros e. apply handler_latched. reflexivity.
Defined.

(** C6, as the design document words it, asks for a free-space query on
    every data event that finds the flag unset.  A data event with an
    empty payload is a counterexample: the callback returns at line 66
    without a query. *)
Lemma empty_data_event_not_queried :
  let env := env_two_chunks in
  let evt := mk_event HTTP_EVENT_ON_DATA (Some []) 0 in
  let w := opened env in
  event_id evt = HTTP_EVENT_ON_DATA /\
  session_open w /\ storage_error w = false /\
  ~ (exists w',
       _http_event_handler env evt w = Some (ESP_OK, w') /\
       queries (trace w') = S (queries (trace w))).
Proof.
  intros env evt w.
  split; [reflexivity|].
  split; [split; [vm_compute; reflexivity
                 | vm_compute; split; [discriminate | reflexivity]]|].
  split; [vm_compute; reflexivity|].
  intros (w' & Hrun & Hq).
  assert (H : _http_event_handler env evt w = Some (ESP_OK, w)) by reflexivity.
  rewrite H in Hrun. injection Hrun as <-.
  exact (n_Sn _ Hq).
Qed.

(** C3 (the last attempt).  The code at the input where the design
    document and the code part ways: the transport fails on all three
    attempts.  The download returns [ESP_FAIL] only after a third sleep, of
    4000 ms, which no attempt follows. *)
Theorem final_attempt_sleeps_before_failing :
  let run := https_download_file env_unreachable in
  option_map fst (run boot) = Some ESP_FAIL /\
  rev (schedule (trace (after run boot)))
  = [Attempt; Sleep 1000; Attempt; Sleep 2000; Attempt; Sleep 4000] /\
  firstn 2 (trace (after run boot))
  = [E_http_client_cleanup; E_vTaskDelay_ms 4000].
Proof. vm_compute. repeat split. Qed.

(** ** Further instances *)

Ltac by_computation :=
  vm_compute;
  first [ reflexivity
        | split; [let H := fresh in intro H; discriminate H | reflexivity]
        | let H := fresh in intro H; discriminate H ].

Lemma wf_two_chunks : Forall wf_event (fst two_chunks).
Proof.
  apply Forall_cons; [apply wf_chunk; vm_compute; reflexivity|].
  apply Forall_cons; [apply wf_chunk; vm_compute; reflexivity|].
  apply Forall_cons; [apply wf_finish | apply Forall_nil].
Qed.

Lemma stream_conservation_witness :
  let env := env_two_chunks in
  let w := opened env in
  let w' := after (transfer env) w in
  (buffer_allocated boot /\
   open_attempt env boot = Some (None, w) /\
   transfer env w = Some (ESP_OK, w') /\
   storage_error w' = false) /\
  flushed_bytes (trace w')
  = flushed_bytes (trace w)
    ++ received_bytes (fst (env_http_client_perform env (trace w))).
Proof.
  intros env w w'.
  assert (Hb : buffer_allocated boot) by by_computation.
  assert (Ho : open_attempt env boot = Some (None, w)) by run_scenario.
  assert (Ht : transfer env w = Some (ESP_OK, w')) by run_scenario.
  assert (He : storage_error w' = false) by by_computation.
  split; [exact (conj Hb (conj Ho (conj Ht He)))|].
  exact (stream_conservation env boot w w' ESP_OK Hb Ho Ht wf_two_chunks He).
Defined.

Lemma callback_stays_in_buffer_witness :
  let env := env_two_chunks in
  let evt := chunk (Z.to_nat 40000) in
  let w := opened env in
  (wf_event evt /\ session_open w /\ buffer_allocated w) /\
  exists w',
    _http_event_handler env evt w = Some (ESP_OK, w') /\
    session_open w' /\ buffer_allocated w'.
Proof.
  intros env evt w.
  assert (Hwf : wf_event evt) by (apply wf_chunk; vm_compute; reflexivity).
  assert (Hs : session_open w) by (split; by_computation).
  assert (Hb : buffer_allocated w) by by_computation.
  split; [exact (conj Hwf (conj Hs Hb))|].
  exact (callback_stays_in_buffer env evt w Hwf Hs Hb).
Defined.

Lemma download_success_accounting_witness :
  let env := env_third_time in
  let w' := after (https_download_file env) boot in
  ((forall t, Forall wf_event (fst (env_http_client_perform env t))) /\
   buffer_allocated boot /\
   https_download_file env boot = Some (ESP_OK, w')) /\
  taken_by_fwrite (trace w') = received_bytes (last_script (trace w')) /\
  total_bytes w' = to_size_t (received (last_script (trace w'))) /\
  storage_error w' = false /\ file_handle w' = None.
Proof.
  intros env w'.
  assert (Hwf : forall t, Forall wf_event (fst (env_http_client_perform env t))).
  { intros t.
    change (Forall wf_event
              (fst (if (attempts_made t <? 2)%nat
                    then ([], ESP_FAIL) else two_chunks))).
    destruct (attempts_made t <? 2)%nat; [apply Forall_nil | apply wf_two_chunks]. }
  assert (Hb : buffer_allocated boot) by by_computation.
  assert (Hrun : https_download_file env boot = Some (ESP_OK, w'))
    by run_scenario.
  split; [exact (conj Hwf (conj Hb Hrun))|].
  exact (download_success_accounting env boot w' Hwf Hb Hrun).
Defined.

Lemma client_init_failure_fatal_witness :
  let env := env_no_client in
  (1 <= MAX_RETRIES /\ env_http_client_init env (trace boot) = false) /\
  for_attempt env 3 1 boot
  = Some (ESP_FAIL, record (E_http_client_init false) boot).
Proof.
  intros env.
  assert (Ha : 1 <= MAX_RETRIES) by (unfold MAX_RETRIES; lia).
  assert (Hi : env_http_client_init env (trace boot) = false) by reflexivity.
  split; [exact (conj Ha Hi)|].
  exact (client_init_failure_fatal env 2 1 boot Ha Hi).
Defined.

Lemma latched_until_decision_witness :
  let env := env_fills_up in
  let w := opened env in
  let script := env_http_client_perform env (trace w) in
  let pre := [chunk (Z.to_nat 2000)] in
  let post := [chunk (Z.to_nat 500); finish] in
  let wp := record (E_http_client_perform (fst script) (snd script)) w in
  let w1 := after (dispatch env pre) wp in
  (fst script = pre ++ post /\
   dispatch env pre wp = Some (tt, w1) /\
   storage_error w1 = true) /\
  transfer env w
  = Some (snd script, set_file_handle None (record E_fclose w1)).
Proof.
  intros env w script pre post wp w1.
  assert (Hsplit : fst script = pre ++ post) by reflexivity.
  assert (Hpre : dispatch env pre wp = Some (tt, w1)) by run_scenario.
  assert (Herr : storage_error w1 = true) by by_computation.
  split; [exact (conj Hsplit (conj Hpre Herr))|].
  exact (latched_until_decision env w w1 pre post Hsplit Hpre Herr).
Defined.

Lemma inconsistent_free_space_accepts_witness :
  let env := env_inconsistent in
  let evt := chunk (Z.to_nat 2000) in
  let bytes := repeat x2a (Z.to_nat 2000) in
  let w := opened env in
  let info := env_spiffs_info env (trace w) in
  let n := to_size_t (data_len evt) in
  (data evt = Some bytes /\ 0 < data_len evt /\
   non_null (file_handle w) = true /\ storage_error w = false /\
   fst info = ESP_OK /\ 0 <= fst (snd info) < snd (snd info) /\
   snd (snd info) < SIZE_MODULUS /\
   n <= SIZE_MODULUS - (snd (snd info) - fst (snd info))) /\
  on_data env evt w
  = buffer_chunk env (Z.to_nat n) n bytes
      (record (E_spiffs_info (fst info) (fst (snd info)) (snd (snd info))) w).
Proof.
  intros env evt bytes w info n.
  assert (Hd : data evt = Some bytes) by reflexivity.
  assert (Hl : 0 < data_len evt) by by_computation.
  assert (Hf : non_null (file_handle w) = true) by by_computation.
  assert (He : storage_error w = false) by by_computation.
  assert (Hok : fst info = ESP_OK) by reflexivity.
  assert (Ht : 0 <= fst (snd info) < snd (snd info)) by by_computation.
  assert (Hu : snd (snd info) < SIZE_MODULUS) by by_computation.
  assert (Hn : n <= SIZE_MODULUS - (snd (snd info) - fst (snd info)))
    by by_computation.
  split; [exact (conj Hd (conj Hl (conj Hf (conj He
                 (conj Hok (conj Ht (conj Hu Hn)))))))|].
  exact (inconsistent_free_space_accepts env evt bytes w Hd Hl Hf He
           Hok Ht Hu Hn).
Defined.



